(** * PeacePulse wellness application: the state store, the persistence
    bridge and the chat component's local rules, embedded from
    [wellness-context.tsx] and [ChatBot.tsx].

    Conventions of the embedding.
    - A JavaScript string is a [string]: a sequence of 8-bit code units,
      read as the Latin-1 range U+0000..U+00FF of UTF-16.
    - A JavaScript array is a [list]; [push] appends at the end, the spread
      [[...a, ...b]] is [a ++ b].
    - A [Set] of strings is a [gset string]; [localStorage] is a
      [gmap string string].
    - A value the program reads from its environment (the clock, the random
      generator, the answer of the remote assistant, the platform's JSON
      decoder) is an explicit argument of the function that reads it.
    - A [throw] is the [Throw] constructor of [outcome]; [try]/[catch] is a
      match on it. *)

From Stdlib Require Import Ascii String.
From stdpp Require Import base option list strings pretty gmap.


(** ** Text *)

Module Text.

(** [String.prototype.toLowerCase] on one code unit of the Latin-1 range:
    A-Z, and the accented capitals U+00C0..U+00DE except the multiplication
    sign U+00D7, move up by 32. *)
Definition lower_unit (c : ascii) : ascii :=
  let n := N_of_ascii c in
  if ((65 <=? n) && (n <=? 90))%N then ascii_of_N (n + 32)
  else if ((192 <=? n) && (n <=? 222) && negb (n =? 215))%N then ascii_of_N (n + 32)
  else c.

Fixpoint toLowerCase (s : string) : string :=
  match s with
  | EmptyString => EmptyString
  | String c s' => String (lower_unit c) (toLowerCase s')
  end.

(** WhiteSpace and LineTerminator code units below U+0100: TAB, LF, VT, FF,
    CR, SP and NBSP. *)
Definition is_space (c : ascii) : bool :=
  let n := N_of_ascii c in
  (((9 <=? n) && (n <=? 13)) || (n =? 32) || (n =? 160))%N.

Fixpoint trimStart (s : string) : string :=
  match s with
  | String c s' => if is_space c then trimStart s' else s
  | EmptyString => EmptyString
  end.

(** [trimEnd], right to left: a unit is dropped when it is a space and
    everything after it has been dropped. *)
Fixpoint trimEnd (s : string) : string :=
  match s with
  | EmptyString => EmptyString
  | String c s' =>
      match trimEnd s' with
      | EmptyString => if is_space c then EmptyString else String c EmptyString
      | rest => String c rest
      end
  end.

Definition trim (s : string) : string := trimEnd (trimStart s).

(** [s.startsWith(p)]. *)
Fixpoint startsWith (p s : string) : bool :=
  match p, s with
  | EmptyString, _ => true
  | String a p', String b s' => bool_decide (a = b) && startsWith p' s'
  | String _ _, EmptyString => false
  end.

(** A string is truthy when it is not empty. *)
Definition truthy (s : string) : bool :=
  match s with EmptyString => false | String _ _ => true end.

End Text.

(** ** Regular expressions

    The fragment of the pattern language that the literals of [ChatBot.tsx]
    use: characters, a character class, concatenation, alternation and the
    optional [?]. *)

Module Regex.

Inductive regex : Type :=
| Eps : regex
| Chr : ascii -> regex
| Cls : list ascii -> regex
| Cat : regex -> regex -> regex
| Alt : regex -> regex -> regex
| Opt : regex -> regex.

(** Canonicalize of the [i] flag without the [u] flag: a code unit is
    compared through its upper-case form when that form is one code unit.
    Below U+0100: a-z, and the accented small letters U+00E0..U+00FE except
    the division sign U+00F7, move down by 32; the sharp s (whose upper case
    is two units) stays; the micro sign and the y with diaeresis fold onto
    units of U+0100 and more that nothing else of this range folds onto, so
    they stay as well. *)
Definition canon (c : ascii) : ascii :=
  let n := N_of_ascii c in
  if ((97 <=? n) && (n <=? 122))%N then ascii_of_N (n - 32)
  else if ((224 <=? n) && (n <=? 254) && negb (n =? 247))%N then ascii_of_N (n - 32)
  else c.

Definition unit_eq (ignoreCase : bool) (a b : ascii) : bool :=
  if ignoreCase then bool_decide (canon a = canon b) else bool_decide (a = b).

(** [rmatch i r s]: the rests of [s] after each way of matching [r] at its
    start, in the order a backtracking matcher tries them. *)
Fixpoint rmatch (i : bool) (r : regex) (s : string) : list string :=
  match r with
  | Eps => [s]
  | Chr c =>
      match s with
      | String a s' => if unit_eq i c a then [s'] else []
      | EmptyString => []
      end
  | Cls cs =>
      match s with
      | String a s' => if existsb (fun c => unit_eq i c a) cs then [s'] else []
      | EmptyString => []
      end
  | Cat r1 r2 => flat_map (rmatch i r2) (rmatch i r1 s)
  | Alt r1 r2 => rmatch i r1 s ++ rmatch i r2 s
  | Opt r1 => rmatch i r1 s ++ [s]
  end.

Definition matches_here (i : bool) (r : regex) (s : string) : bool :=
  match rmatch i r s with [] => false | _ :: _ => true end.

(** [RegExp.prototype.test] of a pattern without the [g] flag: a match
    starting at some index of the text. *)
Fixpoint test (i : bool) (r : regex) (s : string) : bool :=
  matches_here i r s ||
  match s with
  | EmptyString => false
  | String _ s' => test i r s'
  end.

(** A run of literal characters. *)
Fixpoint lit (s : string) : regex :=
  match s with
  | EmptyString => Eps
  | String c s' => Cat (Chr c) (lit s')
  end.

(** [(a|b|...)] over literal alternatives. *)
Fixpoint alts (rs : list regex) : regex :=
  match rs with
  | [] => Eps
  | [r] => r
  | r :: rs' => Alt r (alts rs')
  end.

Definition words (ws : list string) : regex := alts (map lit ws).

End Regex.

(** ** Enumerations shared by the store and the chat component *)

Inductive Mood : Type := excellent | good | okay | poor | awful.

Inductive Category : Type := mindfulness | health | reflection | exercise | learning.

Inductive Sender : Type := user | bot.

Inductive Quality : Type := q_excellent | q_good | q_fair | q_poor.

#[global] Instance Mood_eq_dec : EqDecision Mood.
Proof. solve_decision. Defined.
#[global] Instance Category_eq_dec : EqDecision Category.
Proof. solve_decision. Defined.
#[global] Instance Sender_eq_dec : EqDecision Sender.
Proof. solve_decision. Defined.

Definition all_moods : list Mood := [excellent; good; okay; poor; awful].
Definition all_categories : list Category :=
  [mindfulness; health; reflection; exercise; learning].

(** What a throwing computation ends in. *)
Inductive outcome (A : Type) : Type :=
| Ok : A -> outcome A
| Throw : string -> outcome A.
Arguments Ok {A} _.
Arguments Throw {A} _.

(** ** The local classification rules ([fallbackAnalyze]) *)

Module Fallback.
Import Text Regex.

Record Suggestion : Type := mkSuggestion { title : string; category : Category }.

#[global] Instance Suggestion_eq_dec : EqDecision Suggestion.
Proof. solve_decision. Defined.

Record Analyzed : Type := mkAnalyzed { mood : Mood; todos : list Suggestion }.

Definition re_excellent : regex :=
  words ["great"; "awesome"; "fantastic"; "amazing"; "grateful"; "happy"; "joyful"].
Definition re_good : regex :=
  words ["good"; "fine"; "better"; "optimistic"; "calm"].
Definition re_poor : regex :=
  words ["stressed"; "anxious"; "sad"; "tired"; "overwhelmed"; "down"; "lonely"; "angry"].
Definition re_awful : regex :=
  words ["awful"; "terrible"; "horrible"; "depressed"; "can't cope"; "can't cope"].

Definition re_breathing : regex := words ["anxious"; "stressed"; "overwhelmed"].
Definition re_sleep : regex := words ["tired"; "sleep"; "insomnia"].
Definition re_journal : regex := words ["sad"; "down"; "lonely"].
Definition re_walk : regex := words ["angry"; "tense"].

Definition classify (t : string) : Mood :=
  if test false re_excellent t then excellent
  else if test false re_good t then good
  else if test false re_poor t then poor
  else if test false re_awful t then awful
  else okay.

Definition breathing := mkSuggestion "5-minute breathing" mindfulness.
Definition wind_down := mkSuggestion "Wind-down routine before bed" health.
Definition journal := mkSuggestion "Journal for 5 minutes" reflection.
Definition walk := mkSuggestion "10-minute walk" exercise.

Definition defaults : list Suggestion :=
  [ mkSuggestion "Hydrate: 8 glasses of water" health;
    mkSuggestion "10-minute walk" exercise;
    mkSuggestion "Journal for 5 minutes" reflection;
    mkSuggestion "5-minute breathing" mindfulness;
    mkSuggestion "Read 10 pages" learning ].

(** [if (c) todos.push(x)]. *)
Definition push_if (c : bool) (x : Suggestion) (xs : list Suggestion) : list Suggestion :=
  if c then xs ++ [x] else xs.

(** The four keyword rules, in the order of the source. *)
Definition rule_todos (t : string) : list Suggestion :=
  push_if (test false re_walk t) walk
    (push_if (test false re_journal t) journal
      (push_if (test false re_sleep t) wind_down
        (push_if (test false re_breathing t) breathing []))).

(** One turn of [defaults.forEach]: [titles] was computed before the loop
    and is not updated by it. *)
Definition add_default (titles : gset string) (xs : list Suggestion) (d : Suggestion)
  : list Suggestion :=
  if (length xs <? 5) && negb (bool_decide (title d ∈ titles)) then xs ++ [d] else xs.

Definition with_defaults (rules : list Suggestion) : list Suggestion :=
  let titles : gset string := list_to_set (map title rules) in
  fold_left (add_default titles) defaults rules.

Definition fallbackAnalyze (text : string) : Analyzed :=
  let t := toLowerCase text in
  mkAnalyzed (classify t) (take 5 (with_defaults (rule_todos t))).

End Fallback.

(** ** The state store ([WellnessProvider]) *)

Module MoodEntry.
Record t : Type := mk { date : string; mood : Mood; note : option string }.
End MoodEntry.

(** [streak] is a JavaScript number that starts at 0 and only ever has 1
    added to it: a natural number, exact far beyond any session. *)
Module HabitItem.
Record t : Type := mk {
  id : string;
  name : string;
  completed : bool;
  streak : nat;
  category : Category;
  dateCompleted : option string
}.
End HabitItem.

Module TodoItem.
Record t : Type := mk {
  id : string;
  title : string;
  completed : bool;
  category : Category
}.
(** [Omit<TodoItem, "id" | "completed">]. *)
Record input : Type := mkInput { in_title : string; in_category : Category }.
End TodoItem.

Module ChatMessage.
Record t : Type := mk {
  id : string;
  text : string;
  sender : Sender;
  timestamp : string
}.
End ChatMessage.

Module SleepEntry.
Record t : Type := mk {
  id : string;
  date : string;
  bedtime : string;
  wakeup : string;
  durationMinutes : Z;
  quality : Quality
}.
(** [Omit<SleepEntry, "id">]. *)
Record input : Type := mkInput {
  in_date : string;
  in_bedtime : string;
  in_wakeup : string;
  in_durationMinutes : Z;
  in_quality : Quality
}.
(** [{ id, ...entry }]. *)
Definition with_id (i : string) (e : input) : t :=
  mk i (in_date e) (in_bedtime e) (in_wakeup e) (in_durationMinutes e) (in_quality e).
End SleepEntry.

Module JournalEntry.
Record t : Type := mk {
  id : string;
  title : string;
  content : string;
  date : string;
  mood : option Mood
}.
(** [Omit<JournalEntry, "id">]. *)
Record input : Type := mkInput {
  in_title : string;
  in_content : string;
  in_date : string;
  in_mood : option Mood
}.
Definition with_id (i : string) (e : input) : t :=
  mk i (in_title e) (in_content e) (in_date e) (in_mood e).
(** [Partial<Omit<JournalEntry, "id">>]: a field is [Some] when the patch
    carries it. *)
Record patch : Type := mkPatch {
  p_title : option string;
  p_content : option string;
  p_date : option string;
  p_mood : option (option Mood)
}.
(** [{ ...entry, ...updatedEntry }]. *)
Definition merge (e : t) (p : patch) : t :=
  mk (id e)
     (default (title e) (p_title p))
     (default (content e) (p_content p))
     (default (date e) (p_date p))
     (default (mood e) (p_mood p)).
End JournalEntry.

Module Store.
Import Text.

(** The seven [useState] cells. [todayMood = None] is the empty [MoodId]. *)
Record State : Type := mkState {
  todayMood : option Mood;
  moodHistory : list MoodEntry.t;
  habits : list HabitItem.t;
  todos : list TodoItem.t;
  chatMessages : list ChatMessage.t;
  sleepEntries : list SleepEntry.t;
  journalEntries : list JournalEntry.t
}.

(** A queued state update. The setters below are the [set...] functions
    of [useState] called with an updater function: the updater receives the
    pending value of its cell, not the value the calling closure saw. *)
Definition update : Type := State -> State.

Definition nothing : update := fun s => s.
Definition andThen (u1 u2 : update) : update := fun s => u2 (u1 s).
Infix ">>>" := andThen (at level 61, left associativity).

Definition setTodayMoodState (m : option Mood) : update := fun s =>
  mkState m (moodHistory s) (habits s) (todos s) (chatMessages s)
    (sleepEntries s) (journalEntries s).
Definition setMoodHistory (f : list MoodEntry.t -> list MoodEntry.t) : update := fun s =>
  mkState (todayMood s) (f (moodHistory s)) (habits s) (todos s) (chatMessages s)
    (sleepEntries s) (journalEntries s).
Definition setHabits (f : list HabitItem.t -> list HabitItem.t) : update := fun s =>
  mkState (todayMood s) (moodHistory s) (f (habits s)) (todos s) (chatMessages s)
    (sleepEntries s) (journalEntries s).
Definition setTodos (f : list TodoItem.t -> list TodoItem.t) : update := fun s =>
  mkState (todayMood s) (moodHistory s) (habits s) (f (todos s)) (chatMessages s)
    (sleepEntries s) (journalEntries s).
Definition setChatMessages (f : list ChatMessage.t -> list ChatMessage.t) : update := fun s =>
  mkState (todayMood s) (moodHistory s) (habits s) (todos s) (f (chatMessages s))
    (sleepEntries s) (journalEntries s).
Definition setSleepEntries (f : list SleepEntry.t -> list SleepEntry.t) : update := fun s =>
  mkState (todayMood s) (moodHistory s) (habits s) (todos s) (chatMessages s)
    (f (sleepEntries s)) (journalEntries s).
Definition setJournalEntries (f : list JournalEntry.t -> list JournalEntry.t) : update := fun s =>
  mkState (todayMood s) (moodHistory s) (habits s) (todos s) (chatMessages s)
    (sleepEntries s) (f (journalEntries s)).

(** The state of a fresh provider. [today] is
    [new Date().toISOString().slice(0, 10)] and [now] is
    [new Date().toISOString()] at module load and first render. *)
Definition initialMoodHistory (today : string) : list MoodEntry.t :=
  [MoodEntry.mk today good (Some "Had a productive day at work")].

Definition welcome (now : string) : ChatMessage.t :=
  ChatMessage.mk "1"
    "Hello! I'm here to support you on your wellness journey. How are you feeling today?"
    bot now.

Definition initialHabits : list HabitItem.t := [].

Definition initialState (today now : string) : State :=
  mkState None (initialMoodHistory today) initialHabits [] [welcome now] [] [].

(** *** The operations

    Each operation is a closure made during a render: where its body reads
    a state cell directly, it reads the value [r] of that render. *)

Definition setTodayMood (m : Mood) : update := setTodayMoodState (Some m).

Definition addMoodEntry (now : string) (m : Mood) (note : option string) : update :=
  setMoodHistory (fun prev => MoodEntry.mk now m note :: prev) >>>
  setTodayMoodState (Some m).

Definition same_name (a b : string) : bool :=
  bool_decide (toLowerCase a = toLowerCase b).

(** [id] is [Date.now().toString() + Math.random().toString(36).slice(2)].
    [category = None] is a call without the second argument. *)
Definition addHabit (r : State) (id name : string) (category : option Category) : update :=
  let exists_ := existsb (fun h => same_name (HabitItem.name h) name) (habits r) in
  if exists_ then nothing
  else
    let newHabit := HabitItem.mk id name false 0 (default health category) None in
    setHabits (fun prev => prev ++ [newHabit]).

Definition toggle_one (today id : string) (habit : HabitItem.t) : HabitItem.t :=
  if bool_decide (HabitItem.id habit = id) then
    HabitItem.mk (HabitItem.id habit) (HabitItem.name habit)
      (negb (HabitItem.completed habit))
      (if HabitItem.completed habit then HabitItem.streak habit
       else HabitItem.streak habit + 1)
      (HabitItem.category habit)
      (if negb (HabitItem.completed habit) then Some today else None)
  else habit.

(** [today] is [new Date().toISOString().slice(0, 10)]. *)
Definition toggleHabit (today id : string) : update :=
  setHabits (fun prev => map (toggle_one today id) prev).

Definition deleteHabit (id : string) : update :=
  setHabits (fun prev => filter (fun h => HabitItem.id h ≠ id) prev).

(** [gen k] is the [k]-th identifier generated during the call: the todos
    take the first [length items] of them and the mirrored habits the ones
    after. *)
Definition withIds (gen : nat -> string) (items : list TodoItem.input) : list TodoItem.t :=
  imap (fun k t => TodoItem.mk (gen k) (TodoItem.in_title t) false (TodoItem.in_category t))
    items.

Definition addTodos (r : State) (gen : nat -> string) (items : list TodoItem.input) : update :=
  setTodos (fun prev => withIds gen items ++ prev) >>>
  foldr andThen nothing
    (imap (fun k t =>
             addHabit r (gen (length items + k)) (TodoItem.title t)
               (Some (TodoItem.category t)))
       (withIds gen items)).

Definition addChatMessage (message : ChatMessage.t) : update :=
  setChatMessages (fun prev => prev ++ [message]).

Definition addSleepEntry (id : string) (entry : SleepEntry.input) : update :=
  let item := SleepEntry.with_id id entry in
  setSleepEntries (fun prev =>
    let withoutSameDate :=
      filter (fun e => SleepEntry.date e ≠ SleepEntry.in_date entry) prev in
    item :: withoutSameDate).

Definition addJournalEntry (id : string) (entry : JournalEntry.input) : update :=
  setJournalEntries (fun prev => JournalEntry.with_id id entry :: prev).

Definition updateJournalEntry (id : string) (updatedEntry : JournalEntry.patch) : update :=
  setJournalEntries (fun prev =>
    map (fun entry =>
           if bool_decide (JournalEntry.id entry = id)
           then JournalEntry.merge entry updatedEntry else entry)
      prev).

Definition deleteJournalEntry (id : string) : update :=
  setJournalEntries (fun prev =>
    filter (fun entry => JournalEntry.id entry ≠ id) prev).

(** *** Events

    One call of an operation of the context value, with what the call
    reads from the clock and the random generator. *)
Inductive Op : Type :=
| SetTodayMood (m : Mood)
| AddMoodEntry (now : string) (m : Mood) (note : option string)
| AddHabit (id name : string) (category : option Category)
| ToggleHabit (today id : string)
| DeleteHabit (id : string)
| AddTodos (gen : nat -> string) (items : list TodoItem.input)
| AddChatMessage (message : ChatMessage.t)
| AddSleepEntry (id : string) (entry : SleepEntry.input)
| AddJournalEntry (id : string) (entry : JournalEntry.input)
| UpdateJournalEntry (id : string) (updatedEntry : JournalEntry.patch)
| DeleteJournalEntry (id : string).

(** The update queued by [o] when the closure called was made by the
    render that saw [r]. *)
Definition handler (o : Op) (r : State) : update :=
  match o with
  | SetTodayMood m => setTodayMood m
  | AddMoodEntry now m note => addMoodEntry now m note
  | AddHabit id name category => addHabit r id name category
  | ToggleHabit today id => toggleHabit today id
  | DeleteHabit id => deleteHabit id
  | AddTodos gen items => addTodos r gen items
  | AddChatMessage message => addChatMessage message
  | AddSleepEntry id entry => addSleepEntry id entry
  | AddJournalEntry id entry => addJournalEntry id entry
  | UpdateJournalEntry id updatedEntry => updateJournalEntry id updatedEntry
  | DeleteJournalEntry id => deleteJournalEntry id
  end.

(** An event handled between two renders: the closure was made by the
    render of the current state. *)
Definition step (o : Op) (s : State) : State := handler o s s.

Definition run (os : list Op) (s : State) : State := fold_left (fun s o => step o s) os s.

(** The states of a session that finds nothing stored, every event handled
    through the closure of the current render. [Session.history] below also
    has the mount from storage and the closures of earlier renders. *)
Inductive reachable (today now : string) : State -> Prop :=
| reach_init : reachable today now (initialState today now)
| reach_step s o : reachable today now s -> reachable today now (step o s).

End Store.

(** ** The chat component ([ChatBot]) *)

Module Chat.
Import Text Regex Store.

Definition botResponses : list string :=
  [ "That sounds like you're going through a lot. Remember, it's okay to feel this way.";
    "I hear you. Taking time for yourself is so important. Have you tried any breathing exercises today?";
    "It's wonderful that you're sharing this with me. What usually helps you feel better?";
    "Thank you for being open about your feelings. Would you like to try a quick mindfulness exercise?";
    "I understand. Sometimes just talking about it can help. Is there anything specific on your mind?";
    "That's a great insight. How can we work together to support your wellbeing today?";
    "I'm glad you're taking care of yourself. What's one small thing you could do for yourself right now?" ].

(** [/(suicide|kill myself|end it|can't go on|self[- ]?harm|hurt myself)/i] *)
Definition crisisRegex : regex :=
  alts
    [ lit "suicide"; lit "kill myself"; lit "end it"; lit "can't go on";
      Cat (lit "self") (Cat (Opt (Cls ["-"%char; " "%char])) (lit "harm"));
      lit "hurt myself" ].

Definition crisis (userText : string) : bool := test true crisisRegex userText.

Definition safety_preamble : string :=
  "I'm really sorry you're feeling this way. You deserve immediate support. If you might be in danger or thinking about hurting yourself, please contact local emergency services, a trusted person, or a crisis line in your area right now. If you'd like, I can share grounding or breathing steps while you reach out. ".

(** [!apiKey]: the key is undefined or empty. *)
Definition missing (apiKey : option string) : bool :=
  match apiKey with Some k => negb (truthy k) | None => true end.

(** [history.findIndex(user)] and [history.slice] from there. *)
Fixpoint from_first_user (history : list ChatMessage.t) : list ChatMessage.t :=
  match history with
  | [] => []
  | m :: rest =>
      if bool_decide (ChatMessage.sender m = user) then history else from_first_user rest
  end.

Record RawTodo : Type := mkRawTodo { raw_title : string; raw_category : option Category }.

(** The object decoded from the classification answer: [raw_mood = None]
    is a falsy [mood], [raw_todos = None] a [todos] that is not an array,
    [raw_title] is [String(t.title)], [raw_category = None] a falsy
    [category]. The casts of the source check nothing; a mood or a category
    outside the enumerations is not represented here. *)
Record RawAnalysis : Type := mkRawAnalysis {
  raw_mood : option Mood;
  raw_todos : option (list RawTodo)
}.

(** What the component reads from outside during one [sendMessage]:
    the key, the two remote calls (each answers or throws), the clock, the
    random index [Math.floor(Math.random() * botResponses.length)] and the
    identifiers generated by the store. *)
Record Env : Type := mkEnv {
  apiKey : option string;
  chat_remote : list (Sender * string) -> string -> outcome string;
  classify_remote : string -> outcome RawAnalysis;
  msgId : string;
  msgTime : string;
  moodTime : string;
  botId : string;
  botTime : string;
  rnd : nat;
  gen : nat -> string
}.

Definition generateBotReply (env : Env) (history : list ChatMessage.t) (userText : string)
  : outcome string :=
  if missing (apiKey env) then Throw "Missing API key"
  else
    let chatHistory := from_first_user history in
    match chat_remote env
            (map (fun m => (ChatMessage.sender m, ChatMessage.text m)) chatHistory)
            userText with
    | Ok text =>
        if crisis userText then Ok (safety_preamble +:+ text) else Ok text
    | Throw e => Throw e
    end.

Definition analyzeUserText (env : Env) (userText : string) : Fallback.Analyzed :=
  let fallback := Fallback.fallbackAnalyze userText in
  if missing (apiKey env) then fallback
  else
    match classify_remote env userText with
    | Ok parsed =>
        match raw_mood parsed, raw_todos parsed with
        | Some m, Some ts =>
            let capped :=
              filter (fun t => 0 < String.length (Fallback.title t))
                (map (fun t => Fallback.mkSuggestion (trim (raw_title t))
                                 (default health (raw_category t)))
                   (take 5 ts)) in
            Fallback.mkAnalyzed m
              (match capped with [] => Fallback.todos fallback | _ => capped end)
        | _, _ => fallback
        end
    | Throw _ => fallback
    end.

Definition pick_fallback (env : Env) : string :=
  nth (rnd env mod length botResponses) botResponses "".

(** [sendMessage], made by the render that saw [r], with the input box
    holding [currentMessage]. *)
Definition sendMessage (env : Env) (r : State) (currentMessage : string) : update :=
  let text := trim currentMessage in
  if negb (truthy text) then nothing
  else
    let userMessage := ChatMessage.mk (msgId env) text user (msgTime env) in
    let analysis := analyzeUserText env text in
    let reply :=
      match generateBotReply env (chatMessages r ++ [userMessage]) text with
      | Ok reply => reply
      | Throw _ => pick_fallback env
      end in
    addChatMessage userMessage >>>
    addMoodEntry (moodTime env) (Fallback.mood analysis) (Some "Auto-detected from chat") >>>
    (match Fallback.todos analysis with
     | [] => nothing
     | ts =>
         addTodos r (gen env)
           (map (fun t => TodoItem.mkInput (Fallback.title t) (Fallback.category t)) ts)
     end) >>>
    addChatMessage (ChatMessage.mk (botId env) reply bot (botTime env)).

(** The text of the message the bot ends up posting. *)
Definition final_reply (env : Env) (s : State) (currentMessage : string) : option string :=
  ChatMessage.text <$> last (chatMessages (sendMessage env s currentMessage s)).

End Chat.

(** ** The persistence bridge: hydration on mount *)

Module Hydration.
Import Text.

(** A decoded value. The casts [as ChatMessage[]] and the like check
    nothing, so a collection hydrated from storage holds whatever the
    decoder produced. *)
#[warnings="-register-all"]
Inductive json : Type :=
| JNull : json
| JBool : bool -> json
| JNum : Z -> json
| JStr : string -> json
| JArr : list json -> json
| JObj : list (string * json) -> json.

Definition sender_text (s : Sender) : string :=
  match s with user => "user" | bot => "bot" end.

(** A chat message as the value [JSON.stringify] writes and the decoder
    reads back. *)
Definition of_chat (m : ChatMessage.t) : json :=
  JObj [ ("id", JStr (ChatMessage.id m)); ("text", JStr (ChatMessage.text m));
         ("sender", JStr (sender_text (ChatMessage.sender m)));
         ("timestamp", JStr (ChatMessage.timestamp m)) ].

Definition is_chat_record (j : json) : Prop := ∃ m, j = of_chat m.

Definition k_chat : string := "pp_chat_messages".
Definition k_sleep : string := "pp_sleep_entries".
Definition k_journal : string := "pp_journal_entries".

Section Decoder.
(** [JSON.parse] of the platform: a value, or a thrown [SyntaxError]. *)
Variable JSON_parse : string -> outcome json.

(** The body of each [try]: [Ok (Some v)] when the setter is called with
    [v], [Ok None] when no branch calls it. *)
Definition read_chat (localStorage : gmap string string) : outcome (option (list json)) :=
  match localStorage !! k_chat with
  | Some raw =>
      if truthy raw then
        match JSON_parse raw with
        | Ok (JArr parsed) => if 0 <? length parsed then Ok (Some parsed) else Ok None
        | Ok _ => Ok None
        | Throw e => Throw e
        end
      else Ok None
  | None => Ok None
  end.

Definition read_array (key : string) (localStorage : gmap string string)
  : outcome (option (list json)) :=
  match localStorage !! key with
  | Some raw =>
      if truthy raw then
        match JSON_parse raw with
        | Ok (JArr parsed) => Ok (Some parsed)
        | Ok _ => Ok None
        | Throw e => Throw e
        end
      else Ok None
  | None => Ok None
  end.

(** [try { ... } catch {}] around a body, applied to the cell [cur]. *)
Definition settle (body : outcome (option (list json))) (cur : list json) : list json :=
  match body with
  | Ok (Some v) => v
  | Ok None => cur
  | Throw _ => cur
  end.

Definition hydrateChat (localStorage : gmap string string) (cur : list json) : list json :=
  settle (read_chat localStorage) cur.
Definition hydrateSleep (localStorage : gmap string string) (cur : list json) : list json :=
  settle (read_array k_sleep localStorage) cur.
Definition hydrateJournal (localStorage : gmap string string) (cur : list json) : list json :=
  settle (read_array k_journal localStorage) cur.

(** The value stored under [key] is present, not empty, and decodes to
    the array [items]. *)
Definition stored_array (key : string) (localStorage : gmap string string)
    (items : list json) : Prop :=
  ∃ raw, localStorage !! key = Some raw ∧ raw ≠ "" ∧ JSON_parse raw = Ok (JArr items).

End Decoder.

End Hydration.


(** ** The persistence bridge: writing back

    [JSON.stringify] of the platform and the success of
    [localStorage.setItem] (it throws when the quota is exceeded) are taken
    as they come; as in [Hydration], a collection is the array of values it
    holds at run time. *)

Module Persistence.
Import Text Hydration.

Section Bridge.
Variable JSON_stringify : json -> string.
Variable fits : string -> string -> bool.

Definition setItem (key value : string) (localStorage : gmap string string)
  : outcome (gmap string string) :=
  if fits key value then Ok (<[key := value]> localStorage)
  else Throw "QuotaExceededError".

(** [try { localStorage.setItem(key, JSON.stringify(collection)) } catch {}]. *)
Definition persist (key : string) (collection : list json)
    (localStorage : gmap string string) : gmap string string :=
  match setItem key (JSON_stringify (JArr collection)) localStorage with
  | Ok stored => stored
  | Throw _ => localStorage
  end.

Definition persistChat := persist k_chat.
Definition persistSleep := persist k_sleep.
Definition persistJournal := persist k_journal.

End Bridge.

End Persistence.

(** ** The habit tracker view ([HabitTracker]) *)

Module HabitTracker.
Import Text Store.

(** The two [useState] cells of the component. *)
Record Local : Type := mkLocal { newHabitName : string; showAddForm : bool }.

(** [id] is the identifier that [addHabit] generates if it adds. *)
Definition handleAddHabit (r : State) (id : string) (l : Local) : Local * update :=
  if truthy (trim (newHabitName l)) then
    (mkLocal "" false, addHabit r id (trim (newHabitName l)) (Some health))
  else (l, nothing).

Definition completedCount (habits : list HabitItem.t) : nat :=
  length (filter (fun h => HabitItem.completed h = true) habits).

Definition totalHabits (habits : list HabitItem.t) : nat := length habits.

End HabitTracker.

(** ** The journal view ([Journal]) *)

Module Journal.
Import Text Store.

Record Local : Type := mkLocal {
  currentEntry : string;
  currentTitle : string;
  selectedPrompt : string;
  isWriting : bool;
  editingEntry : option string;
  editTitle : string;
  editContent : string
}.

(** [a || b] on strings. *)
Definition or_else (a b : string) : string := if truthy a then a else b.

(** [s.slice(0, n)]. *)
Fixpoint slice0 (n : nat) (s : string) : string :=
  match n, s with
  | S n', String c s' => String c (slice0 n' s')
  | _, _ => EmptyString
  end.

(** [today] is [new Date().toISOString().split('T')[0]], [id] the identifier
    that [addJournalEntry] generates. The entry is added without a mood. *)
Definition saveEntry (today id : string) (l : Local) : Local * update :=
  let content := trim (currentEntry l) in
  if negb (truthy content) then (l, nothing)
  else
    let title := trim (or_else (or_else (trim (currentTitle l)) (slice0 40 content)) "Untitled") in
    (mkLocal "" "" "" false (editingEntry l) (editTitle l) (editContent l),
     addJournalEntry id (JournalEntry.mkInput title content today None)).

Definition usePrompt (prompt : string) (l : Local) : Local :=
  mkLocal (currentEntry l) prompt prompt true (editingEntry l) (editTitle l) (editContent l).

Definition startEdit (entry : JournalEntry.t) (l : Local) : Local :=
  mkLocal (currentEntry l) (currentTitle l) (selectedPrompt l) (isWriting l)
    (Some (JournalEntry.id entry)) (JournalEntry.title entry) (JournalEntry.content entry).

Definition cancelEdit (l : Local) : Local :=
  mkLocal (currentEntry l) (currentTitle l) (selectedPrompt l) (isWriting l) None "" "".

(** With [editingEntry] null the call [updateJournalEntry(null, ...)] finds
    no entry, all ids being strings. *)
Definition saveEdit (l : Local) : Local * update :=
  if negb (truthy (trim (editTitle l))) || negb (truthy (trim (editContent l))) then
    (l, nothing)
  else
    (cancelEdit l,
     match editingEntry l with
     | Some id =>
         updateJournalEntry id
           (JournalEntry.mkPatch (Some (trim (editTitle l))) (Some (trim (editContent l)))
              None None)
     | None => nothing
     end).

(** [confirmed] is the answer of the [confirm] dialog. *)
Definition handleDelete (confirmed : bool) (entryId : string) : update :=
  if confirmed then deleteJournalEntry entryId else nothing.

End Journal.

(** ** The mood view ([MoodTracker]) *)

Module MoodTracker.
Import Text Store.

(** [selectedMood = None] is the empty string of the source. *)
Record Local : Type := mkLocal { selectedMood : option Mood; note : string }.

Definition recentMoods : list MoodEntry.t :=
  [ MoodEntry.mk "Today" good (Some "Had a productive day at work");
    MoodEntry.mk "Yesterday" excellent (Some "Great time with friends");
    MoodEntry.mk "2 days ago" okay (Some "Feeling a bit tired") ].

(** [now] is the time stamp that [addMoodEntry] takes. *)
Definition handleSubmit (now : string) (l : Local) : Local * update :=
  match selectedMood l with
  | Some m => (mkLocal None "", addMoodEntry now m (Some (note l)))
  | None => (l, nothing)
  end.

(** The rows under "Recent Moods":
    [(moodHistory.length ? moodHistory : recentMoods).slice(0, 5)]. *)
Definition shownMoods (moodHistory : list MoodEntry.t) : list MoodEntry.t :=
  take 5 (match moodHistory with [] => recentMoods | _ :: _ => moodHistory end).

End MoodTracker.

(** ** The calendar view ([CalendarView]) *)

Module CalendarView.
Import Text Store.

Record JournalSummary : Type := mkJournalSummary {
  js_id : string;
  js_title : string;
  js_content : string
}.

Record HabitSummary : Type := mkHabitSummary {
  hs_id : string;
  hs_name : string;
  hs_completed : bool;
  hs_category : Category
}.

(** [DayData] as [getDayData] fills it: [mood] and [sleepHours] are never
    set. *)
Record DayData : Type := mkDayData {
  date : nat;
  hasJournal : bool;
  totalHabits : nat;
  habitsCompleted : nat;
  habits : list HabitSummary
}.

Fixpoint repeat_unit (n : nat) (c : ascii) : string :=
  match n with
  | 0 => EmptyString
  | S n' => String c (repeat_unit n' c)
  end.

(** [s.padStart(n, c)] with a one-unit filler. *)
Definition padStart (n : nat) (c : ascii) (s : string) : string :=
  repeat_unit (n - String.length s) c +:+ s.

(** The template literal of [getDayData]; [String(k)] of an integer is its
    decimal notation. [month] counts from 0. *)
Definition dateString (year : Z) (month day : nat) : string :=
  pretty year +:+ "-" +:+ padStart 2 "0" (pretty (month + 1)) +:+ "-"
    +:+ padStart 2 "0" (pretty day).

Definition summary (e : JournalEntry.t) : JournalSummary :=
  mkJournalSummary (JournalEntry.id e) (JournalEntry.title e) (JournalEntry.content e).

Section Dates.
(** [new Date(text)] read through [getFullYear], [getMonth] (from 0) and
    [getDate]; [None] is an invalid date, all of whose readings are NaN. *)
Variable parseDate : string -> option (Z * nat * nat).

(** One turn of [journalEntries.forEach]. *)
Definition file_entry (year : Z) (month : nat)
    (map : gmap nat (list JournalSummary)) (e : JournalEntry.t)
  : gmap nat (list JournalSummary) :=
  match parseDate (JournalEntry.date e +:+ "T00:00:00") with
  | Some (y, m, dayNum) =>
      if bool_decide (y = year) && bool_decide (m = month) then
        <[dayNum := default [] (map !! dayNum) ++ [summary e]]> map
      else map
  | None => map
  end.

Definition journalByDay (journalEntries : list JournalEntry.t) (year : Z) (month : nat)
  : gmap nat (list JournalSummary) :=
  fold_left (file_entry year month) journalEntries ∅.

Definition getDayData (journalEntries : list JournalEntry.t) (habits : list HabitItem.t)
    (year : Z) (month day : nat) : DayData :=
  let hasJournal :=
    match journalByDay journalEntries year month !! day with
    | Some (_ :: _) => true
    | _ => false
    end in
  let dateString := dateString year month day in
  let dayHabits := filter (fun h => HabitItem.dateCompleted h = Some dateString) habits in
  mkDayData day hasJournal (length habits) (length dayHabits)
    (map (fun h => mkHabitSummary (HabitItem.id h) (HabitItem.name h)
                     (HabitItem.completed h) (HabitItem.category h))
       dayHabits).

End Dates.

End CalendarView.

(** ** Sessions: the mount effects and the events after them *)

Module Session.
Import Text Store.

(** The three hydration effects of the mount, on the typed cells. [chat],
    [sleep] and [journal] are the arrays that the stored values decode to;
    [None] is a value that is absent, empty, not an array, or whose decoding
    throws. The casts check nothing: an array is taken to hold records of
    the expected shape. *)
Definition hydrate (chat : option (list ChatMessage.t))
    (sleep : option (list SleepEntry.t)) (journal : option (list JournalEntry.t))
  : update :=
  (match chat with
   | Some parsed =>
       if 0 <? length parsed then setChatMessages (fun _ => parsed) else nothing
   | None => nothing
   end) >>>
  (match sleep with
   | Some parsed => setSleepEntries (fun _ => parsed)
   | None => nothing
   end) >>>
  (match journal with
   | Some parsed => setJournalEntries (fun _ => parsed)
   | None => nothing
   end).

(** The state of the provider once the mount effects have run. *)
Definition mounted (today now : string) (chat : option (list ChatMessage.t))
    (sleep : option (list SleepEntry.t)) (journal : option (list JournalEntry.t))
  : State :=
  hydrate chat sleep journal (initialState today now).

(** The states a session has gone through, the latest first. An event
    calls an operation through the closure of a render of the session: the
    render of the current state, or an earlier one when the call follows an
    [await], as the calls of [sendMessage] do. [ok o r s] restricts the
    events: operation [o], closure of the render that saw [r], current state
    [s]. *)
Inductive history (ok : Op -> State -> State -> Prop) (init : State)
  : list State -> Prop :=
| history_mount : history ok init [init]
| history_event o r s past :
    history ok init (s :: past) ->
    r ∈ s :: past ->
    ok o r s ->
    history ok init (handler o r s :: s :: past).

Definition any_event (o : Op) (r s : State) : Prop := True.

End Session.

(** * Vocabulary of the properties *)

(** ** For the local classification rules *)

Module FallbackSpec.
Import Text Regex Fallback.

(** The rule items as a function of the four keyword tests. *)
Definition rules_of (b_breathing b_sleep b_journal b_walk : bool) : list Suggestion :=
  push_if b_walk walk
    (push_if b_journal journal
      (push_if b_sleep wind_down
        (push_if b_breathing breathing []))).

End FallbackSpec.

(** ** For the state store *)

Module StoreSpec.
Import Text Store.

(** The habits that a call of [addHabit] made by render [r] appends. *)
Definition new_habits (r : State) (id name : string) (category : option Category)
  : list HabitItem.t :=
  if existsb (fun h => same_name (HabitItem.name h) name) (habits r) then []
  else [HabitItem.mk id name false 0 (default health category) None].

(** The habits mirrored by one [addTodos]: every check of a name runs against
    the habits of the render [r], none against the habits queued so far. *)
Definition mirrored (r : State) (gen : nat → string) (items : list TodoItem.input)
  : list HabitItem.t :=
  concat
    (imap (fun k t =>
             new_habits r (gen (length items + k)) (TodoItem.title t)
               (Some (TodoItem.category t)))
       (withIds gen items)).

(** What the toggle does to one habit. *)
Definition toggled (today id : string) (h h' : HabitItem.t) : Prop :=
  (HabitItem.id h = id →
     HabitItem.id h' = HabitItem.id h
     ∧ HabitItem.name h' = HabitItem.name h
     ∧ HabitItem.category h' = HabitItem.category h
     ∧ HabitItem.completed h' = negb (HabitItem.completed h)
     ∧ (HabitItem.completed h = false →
          HabitItem.streak h' = HabitItem.streak h + 1
          ∧ HabitItem.dateCompleted h' = Some today)
     ∧ (HabitItem.completed h = true →
          HabitItem.streak h' = HabitItem.streak h
          ∧ HabitItem.dateCompleted h' = None))
  ∧ (HabitItem.id h ≠ id → h' = h).

Definition sample_habit : HabitItem.t :=
  HabitItem.mk "h1" "Stretch" false 2 health None.

Definition done_habit : HabitItem.t :=
  HabitItem.mk "h0" "Meditate" true 5 mindfulness (Some "2025-12-31").

Definition sample_state : State :=
  mkState None [] [sample_habit] [] [] [] [].

Definition two_habits : State :=
  mkState None [] [done_habit; sample_habit] [] [] [] [].

Definition wake_dates (es : list SleepEntry.t) : list string := map SleepEntry.date es.

(** At most one entry per wake date. *)
Definition one_per_date (es : list SleepEntry.t) : Prop := NoDup (wake_dates es).

Definition night1 : SleepEntry.input :=
  SleepEntry.mkInput "2026-01-02" "23:30" "06:30" 420 q_fair.
Definition night1_again : SleepEntry.input :=
  SleepEntry.mkInput "2026-01-02" "22:00" "07:00" 540 q_good.

(** No habit of [hs] has the name [name], letter case aside. *)
Definition name_free (name : string) (hs : list HabitItem.t) : Prop :=
  Forall (λ h, toLowerCase (HabitItem.name h) ≠ toLowerCase name) hs.

(** Names are unique, letter case aside. *)
Definition names_unique (hs : list HabitItem.t) : Prop :=
  NoDup (map (λ h, toLowerCase (HabitItem.name h)) hs).

(** The same habit a step later: same id and name, streak equal or one
    more. *)
Definition streak_kept (h h' : HabitItem.t) : Prop :=
  HabitItem.id h' = HabitItem.id h
  ∧ HabitItem.name h' = HabitItem.name h
  ∧ (HabitItem.streak h' = HabitItem.streak h
     ∨ HabitItem.streak h' = HabitItem.streak h + 1).

(** The same habit later in the session. *)
Definition streak_grown (h h' : HabitItem.t) : Prop :=
  HabitItem.id h' = HabitItem.id h
  ∧ HabitItem.name h' = HabitItem.name h
  ∧ HabitItem.streak h ≤ HabitItem.streak h'.

(** Where the habit at index [i] of [hs] sits after the operation; [None]
    when the operation removes it. A deletion moves a survivor down by the
    number of removed habits before it; nothing else moves a habit. *)
Definition position_after (o : Op) (hs : list HabitItem.t) (i : nat) : option nat :=
  match o with
  | DeleteHabit id =>
      match hs !! i with
      | Some h =>
          if decide (HabitItem.id h = id) then None
          else Some (length (filter (λ x, HabitItem.id x ≠ id) (take i hs)))
      | None => None
      end
  | _ => Some i
  end.

(** The position of a habit along a run of events. *)
Fixpoint track (os : list Op) (s : State) (i : nat) : option nat :=
  match os with
  | [] => Some i
  | o :: os' =>
      match position_after o (habits s) i with
      | Some j => track os' (step o s) j
      | None => None
      end
  end.

Definition sample_run : list Op :=
  [ ToggleHabit "2026-01-01" "h1";
    AddHabit "h2" "Read" None;
    ToggleHabit "2026-01-01" "h1";
    DeleteHabit "h2";
    ToggleHabit "2026-01-02" "h1" ].

End StoreSpec.

(** ** For the chat component *)

Module ChatSpec.
Import Text Regex Store Chat.

(** The same surroundings without an API key, and with a chat call that
    throws. *)
Definition without_key (env : Env) : Env :=
  mkEnv None (chat_remote env) (classify_remote env) (msgId env) (msgTime env)
    (moodTime env) (botId env) (botTime env) (rnd env) (gen env).

Definition with_failing_call (key : string) (env : Env) : Env :=
  mkEnv (Some key) (λ _ _, Throw "fetch failed") (classify_remote env) (msgId env)
    (msgTime env) (moodTime env) (botId env) (botTime env) (rnd env) (gen env).

End ChatSpec.

(** ** For hydration *)

Module HydrationSpec.
Import Text Store Hydration.

(** A decoder defined on the texts of a finite table and throwing on every
    other text; [JSON.parse] agrees with it on each line of [sample_table]. *)
Definition sample_table : list (string * json) :=
  [ ("[]", JArr []);
    ("[1]", JArr [JNum 1]);
    ("{}", JObj []);
    ("null", JNull) ].

Definition sample_parse (raw : string) : outcome json :=
  match list_find (fun p => fst p = raw) sample_table with
  | Some (_, (_, v)) => Ok v
  | None => Throw "SyntaxError"
  end.

(** A storage whose chat value is an array of one number, whose sleep value
    is the empty array, and that has no journal value. *)
Definition sample_storage : gmap string string :=
  {[ k_chat := "[1]"; k_sleep := "[]" ]}.

Definition in_memory : list json := [of_chat (welcome "2026-01-02T08:00:00.000Z")].

(** A storage whose chat value is the text of the empty array. *)
Definition empty_chat_storage : gmap string string := {[ k_chat := "[]" ]}.

(** A storage whose journal value is an array and whose sleep value does not
    decode. *)
Definition journal_storage : gmap string string :=
  {[ k_journal := "[1]"; k_sleep := "[1" ]}.

End HydrationSpec.

(** ** For runs of the store *)

Module RunSpec.
Import Text Store StoreSpec.

(** The titles of a batch are pairwise different, letter case aside. *)
Definition batch_distinct (items : list TodoItem.input) : Prop :=
  NoDup (map (λ t, toLowerCase (TodoItem.in_title t)) items).

(** The four store calls of one [sendMessage], in the order it makes them. *)
Definition send_ops (userMessage : ChatMessage.t) (moodTime : string)
    (analysis : Fallback.Analyzed) (gen : nat → string) (botMessage : ChatMessage.t)
  : list Op :=
  [ AddChatMessage userMessage;
    AddMoodEntry moodTime (Fallback.mood analysis) (Some "Auto-detected from chat") ]
  ++ match Fallback.todos analysis with
     | [] => []
     | ts =>
         [AddTodos gen
            (map (λ t, TodoItem.mkInput (Fallback.title t) (Fallback.category t)) ts)]
     end
  ++ [AddChatMessage botMessage].

(** One entry through [updateJournalEntry id patch]. *)
Definition patch_one (id : string) (p : JournalEntry.patch) (e : JournalEntry.t)
  : JournalEntry.t :=
  if bool_decide (JournalEntry.id e = id) then JournalEntry.merge e p else e.

Definition sample_journal : JournalEntry.input :=
  JournalEntry.mkInput "Evening" "Walked by the river." "2026-01-02" None.

Definition sample_patch : JournalEntry.patch :=
  JournalEntry.mkPatch (Some "Night") (Some "Read a book.") None None.

End RunSpec.

(** ** For one send of the chat component *)

Module SendSpec.
Import Text Regex Store Chat StoreSpec RunSpec.

Definition userMessage_of (env : Env) (currentMessage : string) : ChatMessage.t :=
  ChatMessage.mk (msgId env) (trim currentMessage) user (msgTime env).

(** The text posted by the bot: the result of [generateBotReply], or the
    canned response picked in the [catch]. *)
Definition reply_of (env : Env) (s : State) (currentMessage : string) : string :=
  match generateBotReply env (chatMessages s ++ [userMessage_of env currentMessage])
          (trim currentMessage) with
  | Ok reply => reply
  | Throw _ => pick_fallback env
  end.

Definition botMessage_of (env : Env) (s : State) (currentMessage : string) : ChatMessage.t :=
  ChatMessage.mk (botId env) (reply_of env s currentMessage) bot (botTime env).

Definition send_run (env : Env) (s : State) (currentMessage : string) : list Op :=
  send_ops (userMessage_of env currentMessage) (moodTime env)
    (analyzeUserText env (trim currentMessage)) (gen env)
    (botMessage_of env s currentMessage).

(** The role-tagged transcript handed to the remote chat call. *)
Definition transcript (history : list ChatMessage.t) : list (Sender * string) :=
  map (fun m => (ChatMessage.sender m, ChatMessage.text m)) (from_first_user history).

Definition quiet_env : Env :=
  mkEnv None (λ _ _, Throw "offline") (λ _, Throw "offline") "m1" "2026-01-02T09:00:00.000Z"
    "2026-01-02T09:00:01.000Z" "m2" "2026-01-02T09:00:02.000Z" 4 (λ k, "g").

(** Surroundings with a key, a chat call that answers, and a classification
    call that ends in [answer]. *)
Definition classifying_env (answer : outcome RawAnalysis) : Env :=
  mkEnv (Some "key") (λ _ _, Ok "Take a slow breath.") (λ _, answer)
    "m1" "2026-01-02T09:00:00.000Z" "2026-01-02T09:00:01.000Z" "m2"
    "2026-01-02T09:00:02.000Z" 4 (λ k, "g").

Definition answering_env : Env :=
  classifying_env
    (Ok (mkRawAnalysis (Some okay)
           (Some [mkRawTodo "  Stretch  " None; mkRawTodo "   " (Some learning)]))).

End SendSpec.

(** ** For the patterns *)

Module RegexSpec.
Import Text Regex.

(** The words that a pattern matches in full: the usual reading of a
    pattern as a set of strings, with the letter comparison of the flag. *)
Fixpoint lang (i : bool) (r : regex) (v : string) : Prop :=
  match r with
  | Eps => v = ""
  | Chr c => ∃ a, v = String a "" ∧ unit_eq i c a = true
  | Cls cs => ∃ a, v = String a "" ∧ existsb (fun c => unit_eq i c a) cs = true
  | Cat r1 r2 => ∃ v1 v2, v = v1 +:+ v2 ∧ lang i r1 v1 ∧ lang i r2 v2
  | Alt r1 r2 => lang i r1 v ∨ lang i r2 v
  | Opt r1 => lang i r1 v ∨ v = ""
  end.

(** [t.includes(w)]: the text has [w] somewhere in it. *)
Definition includes (w t : string) : Prop := ∃ p q, t = p +:+ w +:+ q.

(** The text has one of the words somewhere in it. *)
Definition includes_any (ws : list string) (t : string) : Prop :=
  ∃ w, w ∈ ws ∧ includes w t.

(** The phrases of the crisis pattern, with the three spellings that
    [self[- ]?harm] stands for. *)
Definition crisis_phrases : list string :=
  [ "suicide"; "kill myself"; "end it"; "can't go on";
    "selfharm"; "self-harm"; "self harm"; "hurt myself" ].

Definition words_excellent : list string :=
  ["great"; "awesome"; "fantastic"; "amazing"; "grateful"; "happy"; "joyful"].
Definition words_good : list string := ["good"; "fine"; "better"; "optimistic"; "calm"].
Definition words_poor : list string :=
  ["stressed"; "anxious"; "sad"; "tired"; "overwhelmed"; "down"; "lonely"; "angry"].
Definition words_awful : list string :=
  ["awful"; "terrible"; "horrible"; "depressed"; "can't cope"; "can't cope"].
Definition words_sleep : list string := ["tired"; "sleep"; "insomnia"].

End RegexSpec.

(** ** For texts *)

Module TextSpec.
Import Text.

Definition first_unit (s : string) : option ascii :=
  match s with String c _ => Some c | EmptyString => None end.

Fixpoint last_unit (s : string) : option ascii :=
  match s with
  | EmptyString => None
  | String c s' => match last_unit s' with Some d => Some d | None => Some c end
  end.

(** Neither the first nor the last code unit is white space. *)
Definition no_outer_space (s : string) : Prop :=
  (∀ c, first_unit s = Some c → is_space c = false)
  ∧ (∀ c, last_unit s = Some c → is_space c = false).

End TextSpec.

(** ** For the views *)

Module ViewSpec.
Import Text Store TextSpec.

(** One entry through a saved edit of the entry [id]. *)
Definition edited (id title content : string) (e e' : JournalEntry.t) : Prop :=
  JournalEntry.id e' = JournalEntry.id e
  ∧ JournalEntry.date e' = JournalEntry.date e
  ∧ JournalEntry.mood e' = JournalEntry.mood e
  ∧ (JournalEntry.id e = id →
       JournalEntry.title e' = title ∧ JournalEntry.content e' = content)
  ∧ (JournalEntry.id e ≠ id → e' = e).

Definition blank_journal : Journal.Local :=
  Journal.mkLocal "" "" "" false None "" "".

Definition draft : Journal.Local :=
  Journal.mkLocal "  Walked by the river, then read for an hour before going to bed.  "
    "   " "" false None "" "".

End ViewSpec.

(** ** For the calendar and the bridge *)

Module CalendarSpec.
Import Text Store Hydration.

(** A habit is completed exactly when it carries a completion date, and a
    completed habit has a streak of at least 1. *)
Definition dated (h : HabitItem.t) : Prop :=
  (HabitItem.completed h = true ↔ is_Some (HabitItem.dateCompleted h))
  ∧ (HabitItem.completed h = true → 1 ≤ HabitItem.streak h).

(** The entry is filed under day [d] of the month shown. *)
Definition on_day (parseDate : string → option (Z * nat * nat)) (year : Z) (month d : nat)
    (e : JournalEntry.t) : Prop :=
  parseDate (JournalEntry.date e +:+ "T00:00:00") = Some (year, month, d).

#[global] Instance on_day_dec parseDate year month d e :
  Decision (on_day parseDate year month d e).
Proof. unfold on_day. apply _. Defined.

(** A reader of dates that knows one text. *)
Definition sample_parseDate (text : string) : option (Z * nat * nat) :=
  if bool_decide (text = "2026-01-02T00:00:00") then Some (2026%Z, 0, 2) else None.

(** An encoder that knows two arrays; the decoder [sample_parse] reads both
    back. *)
Definition sample_stringify (j : json) : string :=
  match j with
  | JArr [] => "[]"
  | JArr [JNum 1] => "[1]"
  | _ => "null"
  end.

End CalendarSpec.

(** ** For sessions with closures of earlier renders *)

Module SessionSpec.
Import Text Store Chat StoreSpec RunSpec SendSpec Session.

Definition lower_names (hs : list HabitItem.t) : list string :=
  map (λ h, toLowerCase (HabitItem.name h)) hs.

(** Every habit name of [s] is a habit name of [r], letter case aside: no
    habit with a new name has been added since the render that saw [r]. *)
Definition no_habit_since (r s : State) : Prop :=
  lower_names (habits s) ⊆ lower_names (habits r).


Definition walk_item : TodoItem.input := TodoItem.mkInput "Walk" exercise.

(** A session in which the habit "Walk" exists when the send button is
    clicked and is deleted while the classification is awaited. *)
Definition at_click (today now : string) : State :=
  step (AddHabit "h1" "Walk" (Some health)) (initialState today now).

Definition after_delete (today now : string) : State :=
  step (DeleteHabit "h1") (at_click today now).

(** Surroundings whose classification answers the single item Walk. *)
Definition walk_env : Env :=
  classifying_env
    (Ok (mkRawAnalysis (Some okay) (Some [mkRawTodo "Walk" (Some exercise)]))).

(** A session in which a habit "stretch" is added while the classification
    of [answering_env], which answers "Stretch", is awaited. *)
Definition fresh_click : State := initialState "2026-01-02" "2026-01-02T08:00:00.000Z".

Definition added_meanwhile : State := step (AddHabit "h" "stretch" None) fresh_click.

Definition stored_chat : list ChatMessage.t :=
  [ ChatMessage.mk "1" "Hello!" bot "2026-01-01T08:00:00.000Z";
    ChatMessage.mk "2" "so tired" user "2026-01-01T08:01:00.000Z" ].

End SessionSpec.

(** ** For the letter case of the crisis pattern *)

Module CaseSpec.
Import Text Regex RegexSpec.

(** The capital of a letter a-z; every other code unit as it is. *)
Definition capital (c : ascii) : ascii :=
  let n := N_of_ascii c in
  if ((97 <=? n) && (n <=? 122))%N then ascii_of_N (n - 32) else c.

Fixpoint capitals (s : string) : string :=
  match s with
  | EmptyString => EmptyString
  | String c s' => String (capital c) (capitals s')
  end.

(** [v] is the word [w], the case of the letters A to Z aside. *)
Definition spells (w v : string) : Prop := capitals v = capitals w.

(** The text has the word somewhere in it, in any mix of cases. *)
Definition says (w t : string) : Prop := ∃ p v q, t = p +:+ v +:+ q ∧ spells w v.

Definition says_any (ws : list string) (t : string) : Prop := ∃ w, w ∈ ws ∧ says w t.

(** A code unit below U+0080 that is not a capital letter. *)
Definition plain (c : ascii) : bool :=
  let n := N_of_ascii c in
  ((n <? 128) && negb ((65 <=? n) && (n <=? 90)))%N.

Fixpoint plain_word (w : string) : bool :=
  match w with
  | EmptyString => true
  | String c w' => plain c && plain_word w'
  end.

End CaseSpec.

(** * Properties *)

(** A closed decidable proposition, settled by evaluating its decision. *)
Ltac by_evaluation := apply (bool_decide_unpack _); vm_compute; exact I.

(** ** The local classification rules *)

Module FallbackFacts.
Import Text Regex Fallback FallbackSpec.

Lemma rule_todos_rules_of t :
  rule_todos t =
  rules_of (test false re_breathing t) (test false re_sleep t)
    (test false re_journal t) (test false re_walk t).
Proof. reflexivity. Qed.

(** Whatever the keyword tests say, the list is filled up to exactly five
    items: the two defaults that no rule produces always fit. *)
Lemma with_defaults_five b1 b2 b3 b4 :
  length (with_defaults (rules_of b1 b2 b3 b4)) = 5.
Proof. destruct b1, b2, b3, b4; vm_compute; reflexivity. Qed.

Lemma with_defaults_titles b1 b2 b3 b4 :
  NoDup (map title (with_defaults (rules_of b1 b2 b3 b4))).
Proof.
  destruct b1, b2, b3, b4; by_evaluation.
Qed.

Lemma with_defaults_appended b1 b2 b3 b4 :
  ∃ appended,
    with_defaults (rules_of b1 b2 b3 b4) = rules_of b1 b2 b3 b4 ++ appended
    ∧ sublist appended defaults.
Proof.
  destruct b1, b2, b3, b4; vm_compute;
    (eexists; split; [reflexivity |]);
    repeat first [apply sublist_nil | apply sublist_skip | apply sublist_cons].
Qed.

Lemma mood_enumerated (m : Mood) : In m all_moods.
Proof. destruct m; simpl; tauto. Qed.

Lemma category_enumerated (c : Category) : In c all_categories.
Proof. destruct c; simpl; tauto. Qed.

(** C7. For every input text the local classification returns: one mood of
    the five-value enumeration; between 1 and 5 action items (always 5 in
    fact), each in one of the five categories; no two items with the same
    title; and the list is the rule items followed by default items in the
    order of the default list. Being a total function, it never throws. *)
Theorem fallbackAnalyze_shape (text : string) :
  let a := fallbackAnalyze text in
  In (mood a) all_moods
  ∧ 1 ≤ length (todos a) ≤ 5
  ∧ Forall (λ x, In (category x) all_categories) (todos a)
  ∧ NoDup (map title (todos a))
  ∧ ∃ appended,
      todos a = rule_todos (toLowerCase text) ++ appended
      ∧ sublist appended defaults.
Proof.
  cbn zeta. unfold fallbackAnalyze; cbn [mood todos].
  rewrite rule_todos_rules_of.
  generalize (test false re_breathing (toLowerCase text))
             (test false re_sleep (toLowerCase text))
             (test false re_journal (toLowerCase text))
             (test false re_walk (toLowerCase text)).
  intros b1 b2 b3 b4.
  assert (Hfive := with_defaults_five b1 b2 b3 b4).
  rewrite take_ge by lia.
  split; [apply mood_enumerated |].
  split; [lia |].
  split; [apply Forall_forall; intros; apply category_enumerated |].
  split; [apply with_defaults_titles | apply with_defaults_appended].
Qed.

(** C8. On the text "I feel anxious and can't sleep" the local
    classification returns mood poor and a list of five items with distinct
    titles that holds the breathing item (mindfulness) and the wind-down
    routine before bed (health). *)
Theorem fallbackAnalyze_anxious_sleep :
  let a := fallbackAnalyze "I feel anxious and can't sleep" in
  mood a = poor
  ∧ In (mkSuggestion "5-minute breathing" mindfulness) (todos a)
  ∧ In (mkSuggestion "Wind-down routine before bed" health) (todos a)
  ∧ 1 ≤ length (todos a) ≤ 5
  ∧ NoDup (map title (todos a))
  ∧ todos a =
      [ mkSuggestion "5-minute breathing" mindfulness;
        mkSuggestion "Wind-down routine before bed" health;
        mkSuggestion "Hydrate: 8 glasses of water" health;
        mkSuggestion "10-minute walk" exercise;
        mkSuggestion "Journal for 5 minutes" reflection ].
Proof.
  assert (E : fallbackAnalyze "I feel anxious and can't sleep" =
              mkAnalyzed poor
                [ breathing; wind_down;
                  mkSuggestion "Hydrate: 8 glasses of water" health; walk; journal ])
    by (vm_compute; reflexivity).
  cbn zeta. rewrite E. cbn [mood todos].
  split; [reflexivity |].
  split; [simpl; tauto |].
  split; [simpl; tauto |].
  split; [simpl; lia |].
  split; [| reflexivity].
  by_evaluation.
Qed.

End FallbackFacts.

(** ** The state store *)

Module StoreFacts.
Import Text Store StoreSpec.

(** *** What each operation does to the record of cells *)

Lemma state_eta (s : State) :
  mkState (todayMood s) (moodHistory s) (habits s) (todos s) (chatMessages s)
    (sleepEntries s) (journalEntries s) = s.
Proof. by destruct s. Qed.

Lemma addHabit_appends r id name category s :
  addHabit r id name category s =
  setHabits (λ prev, prev ++ new_habits r id name category) s.
Proof.
  unfold addHabit, new_habits.
  destruct (existsb _ (habits r)); [| reflexivity].
  unfold nothing, setHabits. rewrite app_nil_r. by rewrite state_eta.
Qed.

(** A queue of appending updates appends the concatenation. *)
Lemma queue_appends {A} (l : list A) :
  ∀ (f : nat → A → update) (g : nat → A → list HabitItem.t),
    (∀ k x s, f k x s = setHabits (λ prev, prev ++ g k x) s) →
    ∀ s, foldr andThen nothing (imap f l) s =
         setHabits (λ prev, prev ++ concat (imap g l)) s.
Proof.
  induction l as [| x l IH]; intros f g Hfg s; cbn.
  - unfold nothing, setHabits. rewrite app_nil_r. by rewrite state_eta.
  - unfold andThen at 1. rewrite Hfg.
    rewrite (IH (f ∘ S) (g ∘ S)) by (intros; apply Hfg).
    unfold setHabits; cbn. by rewrite <- app_assoc.
Qed.

Lemma addTodos_cells r gen items s :
  addTodos r gen items s =
  mkState (todayMood s) (moodHistory s) (habits s ++ mirrored r gen items)
    (withIds gen items ++ todos s) (chatMessages s) (sleepEntries s) (journalEntries s).
Proof.
  unfold addTodos, andThen at 1.
  rewrite (queue_appends (withIds gen items) _
             (fun k t => new_habits r (gen (length items + k)) (TodoItem.title t)
                           (Some (TodoItem.category t))))
    by (intros; apply addHabit_appends).
  reflexivity.
Qed.

Lemma new_habits_streak r id name category :
  Forall (λ h, HabitItem.streak h = 0 ∧ HabitItem.completed h = false)
    (new_habits r id name category).
Proof.
  unfold new_habits. destruct (existsb _ _); repeat constructor.
Qed.

Lemma Forall_imap {A B} (P : B → Prop) (l : list A) :
  ∀ g : nat → A → B, (∀ k x, P (g k x)) → Forall P (imap g l).
Proof.
  induction l as [| x l IH]; intros g Hg; cbn; constructor.
  - apply Hg.
  - apply IH. intros; apply Hg.
Qed.

Lemma mirrored_streak r gen items :
  Forall (λ h, HabitItem.streak h = 0 ∧ HabitItem.completed h = false)
    (mirrored r gen items).
Proof.
  unfold mirrored. apply Forall_concat, Forall_imap.
  intros; apply new_habits_streak.
Qed.

(** *** setTodayMood *)

(** C9. [setTodayMood mood] sets the current-session mood to [mood] and
    leaves the mood history, the habits, the todos, the chat messages, the
    sleep entries and the journal entries as they were. *)
Theorem setTodayMood_frame (m : Mood) (s : State) :
  let s' := step (SetTodayMood m) s in
  todayMood s' = Some m
  ∧ moodHistory s' = moodHistory s
  ∧ habits s' = habits s
  ∧ todos s' = todos s
  ∧ chatMessages s' = chatMessages s
  ∧ sleepEntries s' = sleepEntries s
  ∧ journalEntries s' = journalEntries s.
Proof. cbn. repeat split. Qed.

(** *** toggleHabit *)

Lemma toggle_one_other today id h :
  HabitItem.id h ≠ id → toggle_one today id h = h.
Proof. intros Hne. unfold toggle_one. by rewrite bool_decide_eq_false_2. Qed.

Lemma toggle_none today id hs :
  (∀ h, In h hs → HabitItem.id h ≠ id) → map (toggle_one today id) hs = hs.
Proof.
  induction hs as [| h hs IH]; intros Hno; cbn; [done |].
  rewrite toggle_one_other by (apply Hno; by left).
  f_equal. apply IH. intros h' Hin. apply Hno. by right.
Qed.

Lemma toggle_one_toggled today id h : toggled today id h (toggle_one today id h).
Proof.
  unfold toggled, toggle_one. case_bool_decide as Hid; split; try done.
  intros _. cbn. destruct (HabitItem.completed h); repeat split; done.
Qed.

(** C3. [toggleHabit id] keeps the habits in place and, position by
    position: a habit whose id is [id] has its completion flag flipped, and
    when it was incomplete its streak grows by exactly 1 and its completion
    date becomes today, when it was complete its streak is unchanged and its
    completion date is cleared; a habit with another id is unchanged. When no
    habit has the id the whole state is unchanged; the other cells are never
    touched. *)
Theorem toggleHabit_spec (today id : string) (s : State) :
  let s' := step (ToggleHabit today id) s in
  Forall2 (toggled today id) (habits s) (habits s')
  ∧ ((∀ h, In h (habits s) → HabitItem.id h ≠ id) → s' = s)
  ∧ todayMood s' = todayMood s
  ∧ moodHistory s' = moodHistory s
  ∧ todos s' = todos s
  ∧ chatMessages s' = chatMessages s
  ∧ sleepEntries s' = sleepEntries s
  ∧ journalEntries s' = journalEntries s.
Proof.
  cbn. split; [| split; [| repeat split]].
  - induction (habits s) as [| h hs IH]; cbn; constructor; [| exact IH].
    apply toggle_one_toggled.
  - intros Hno. unfold toggleHabit, setHabits.
    rewrite toggle_none by exact Hno. apply state_eta.
Qed.

Lemma toggleHabit_spec_witness :
  (∃ h', habits (step (ToggleHabit "2026-01-01" "h1") sample_state) = [h']
         ∧ HabitItem.completed h' = true
         ∧ HabitItem.streak h' = 3
         ∧ HabitItem.dateCompleted h' = Some "2026-01-01")
  ∧ (∃ h0' h1', habits (step (ToggleHabit "2026-01-01" "h0") two_habits) = [h0'; h1']
                ∧ HabitItem.completed h0' = false
                ∧ HabitItem.streak h0' = 5
                ∧ HabitItem.dateCompleted h0' = None
                ∧ h1' = sample_habit)
  ∧ step (ToggleHabit "2026-01-01" "zz") sample_state = sample_state.
Proof.
  split; [| split].
  - destruct (toggleHabit_spec "2026-01-01" "h1" sample_state) as [Hall _].
    apply Forall2_cons_inv_l in Hall as (h' & rest & [Hyes _] & Hrest & Ehs).
    apply Forall2_nil_inv_l in Hrest as ->.
    destruct (Hyes eq_refl) as (_ & _ & _ & Hc & Hup & _).
    destruct (Hup eq_refl) as [Hs Hd].
    exists h'. repeat split; done.
  - destruct (toggleHabit_spec "2026-01-01" "h0" two_habits) as [Hall _].
    apply Forall2_cons_inv_l in Hall as (h0' & rest & [Hyes _] & Hrest & Ehs).
    apply Forall2_cons_inv_l in Hrest as (h1' & rest' & [_ Hno] & Hrest & ->).
    apply Forall2_nil_inv_l in Hrest as ->.
    destruct (Hyes eq_refl) as (_ & _ & _ & Hc & _ & Hdown).
    destruct (Hdown eq_refl) as [Hs Hd].
    exists h0', h1'. repeat split; try done.
    apply Hno. discriminate.
  - destruct (toggleHabit_spec "2026-01-01" "zz" sample_state) as (_ & Hno & _).
    apply Hno. intros h [<- | []]. discriminate.
Defined.

(** *** addSleepEntry *)

Lemma with_id_date id e : SleepEntry.date (SleepEntry.with_id id e) = SleepEntry.in_date e.
Proof. reflexivity. Qed.

Lemma none_left_on_date d (es : list SleepEntry.t) :
  filter (λ x, SleepEntry.date x = d) (filter (λ x, SleepEntry.date x ≠ d) es) = [].
Proof.
  induction es as [| e es IH]; [done |].
  destruct (decide (SleepEntry.date e = d)) as [Heq | Hne].
  - by rewrite (filter_cons_False (λ x, SleepEntry.date x ≠ d)) by (intros H; by apply H).
  - rewrite (filter_cons_True (λ x, SleepEntry.date x ≠ d)) by done.
    by rewrite filter_cons_False.
Qed.

Lemma date_gone d (es : list SleepEntry.t) :
  d ∉ wake_dates (filter (λ x, SleepEntry.date x ≠ d) es).
Proof.
  unfold wake_dates. intros Hin.
  apply list_elem_of_fmap in Hin as (e & -> & He).
  apply list_elem_of_filter in He as [Hne _]. by apply Hne.
Qed.

Lemma one_per_date_filter (P : SleepEntry.t → Prop) `{!∀ x, Decision (P x)} es :
  one_per_date es → one_per_date (filter P es).
Proof.
  unfold one_per_date, wake_dates. intros Hes.
  eapply sublist_NoDup; [exact Hes |].
  apply (fmap_sublist SleepEntry.date), sublist_filter.
Qed.

Lemma addSleepEntry_one_per_date id e s :
  one_per_date (sleepEntries s) → one_per_date (sleepEntries (addSleepEntry id e s)).
Proof.
  intros Hs. unfold one_per_date. cbn. apply NoDup_cons_2.
  - apply date_gone.
  - by apply one_per_date_filter.
Qed.

(** Only [addSleepEntry] writes the sleep cell. *)
Lemma sleep_frame o r s :
  match o with
  | AddSleepEntry _ _ => True
  | _ => sleepEntries (handler o r s) = sleepEntries s
  end.
Proof.
  destruct o; cbn; try done.
  - by rewrite addHabit_appends.
  - by rewrite addTodos_cells.
Qed.

Lemma step_one_per_date o s :
  one_per_date (sleepEntries s) → one_per_date (sleepEntries (step o s)).
Proof.
  intros Hs. unfold step. pose proof (sleep_frame o s s) as Hf.
  destruct o; try (by rewrite Hf).
  by apply addSleepEntry_one_per_date.
Qed.

Lemma reachable_one_per_date today now s :
  reachable today now s → one_per_date (sleepEntries s).
Proof.
  induction 1 as [| s o _ IH]; [apply NoDup_nil_2 | by apply step_one_per_date].
Qed.

(** C5. [addSleepEntry] drops the entries of the new entry's wake date and
    puts the new entry in front. After two calls with the same date, the
    entries of that date are exactly the second call's entry. Every state
    that the operations of the store reach from the initial state has at most
    one entry per wake date, and every operation keeps that property from
    whatever state has it. *)
Theorem addSleepEntry_replaces_by_date :
  (∀ id e s,
     sleepEntries (step (AddSleepEntry id e) s) =
     SleepEntry.with_id id e
       :: filter (λ x, SleepEntry.date x ≠ SleepEntry.in_date e) (sleepEntries s))
  ∧ (∀ id1 e1 id2 e2 s,
       SleepEntry.in_date e1 = SleepEntry.in_date e2 →
       filter (λ x, SleepEntry.date x = SleepEntry.in_date e2)
         (sleepEntries (step (AddSleepEntry id2 e2) (step (AddSleepEntry id1 e1) s)))
       = [SleepEntry.with_id id2 e2])
  ∧ (∀ today now s, reachable today now s → NoDup (map SleepEntry.date (sleepEntries s)))
  ∧ (∀ o s, NoDup (map SleepEntry.date (sleepEntries s)) →
            NoDup (map SleepEntry.date (sleepEntries (step o s)))).
Proof.
  split; [reflexivity |]. split; [| split; [| apply step_one_per_date]].
  - intros id1 e1 id2 e2 s _.
    unfold step, handler, addSleepEntry, setSleepEntries; cbn [sleepEntries].
    rewrite filter_cons_True by apply with_id_date.
    by rewrite none_left_on_date.
  - apply reachable_one_per_date.
Qed.

Lemma addSleepEntry_replaces_by_date_witness :
  let s0 := initialState "2026-01-02" "2026-01-02T08:00:00.000Z" in
  let s2 := step (AddSleepEntry "b" night1_again) (step (AddSleepEntry "a" night1) s0) in
  filter (λ x, SleepEntry.date x = "2026-01-02") (sleepEntries s2)
    = [SleepEntry.mk "b" "2026-01-02" "22:00" "07:00" 540 q_good]
  ∧ NoDup (map SleepEntry.date (sleepEntries s2))
  ∧ NoDup (map SleepEntry.date (sleepEntries (step (AddSleepEntry "c" night1) s2))).
Proof.
  destruct addSleepEntry_replaces_by_date as (_ & Htwice & Hinv & Hkeep).
  assert (Hs2 : reachable "2026-01-02" "2026-01-02T08:00:00.000Z"
                  (step (AddSleepEntry "b" night1_again)
                     (step (AddSleepEntry "a" night1)
                        (initialState "2026-01-02" "2026-01-02T08:00:00.000Z"))))
    by (do 2 apply reach_step; apply reach_init).
  split; [| split].
  - apply (Htwice "a" night1 "b" night1_again). reflexivity.
  - exact (Hinv _ _ _ Hs2).
  - apply Hkeep. exact (Hinv _ _ _ Hs2).
Defined.

(** *** addTodos and addHabit *)

Lemma name_free_existsb name hs :
  name_free name hs ↔ existsb (fun h => same_name (HabitItem.name h) name) hs = false.
Proof.
  unfold name_free, same_name. induction hs as [| h hs IH]; cbn.
  - split; [done | constructor].
  - rewrite Forall_cons, orb_false_iff, IH, bool_decide_eq_false. tauto.
Qed.

(** [addTodos] of the single item Walk/exercise, through the closure of any
    render [r] and in any current state [s]: the todo is put in front; the
    habit is appended when the habits of [r] have no "Walk", and not
    otherwise. *)
Lemma addTodos_walk_cells (gen : nat → string) (r s : State) :
  addTodos r gen [SessionSpec.walk_item] s =
  mkState (todayMood s) (moodHistory s)
    (habits s ++ new_habits r (gen 1) "Walk" (Some exercise))
    (TodoItem.mk (gen 0) "Walk" false exercise :: todos s)
    (chatMessages s) (sleepEntries s) (journalEntries s).
Proof.
  rewrite addTodos_cells. unfold mirrored, withIds; cbn. by rewrite app_nil_r.
Qed.

(** C6, at the failing input. The habit "Walk" exists when the send button
    is clicked and is deleted while the classification is awaited; the
    classification answers the single item Walk/exercise. The state that
    [addTodos] is then applied to has no habit named "Walk", but the closure
    called is the one of the click-time render, whose habits [addHabit]
    tests: the todo is added and no habit is. The closure of the current
    render, called in the same state, adds the habit. *)
Theorem addTodos_walk_after_delete (today now : string) (gen : nat → string) :
  let r := SessionSpec.at_click today now in
  let s := SessionSpec.after_delete today now in
  let s' := addTodos r gen [SessionSpec.walk_item] s in
  reachable today now r
  ∧ reachable today now s
  ∧ Session.history Session.any_event (initialState today now)
      [s'; s; r; initialState today now]
  ∧ name_free "Walk" (habits s)
  ∧ todos s' = [TodoItem.mk (gen 0) "Walk" false exercise]
  ∧ habits s' = []
  ∧ habits (addTodos s gen [SessionSpec.walk_item] s)
    = [HabitItem.mk (gen 1) "Walk" false 0 exercise None]
  ∧ (let sent := Chat.sendMessage SessionSpec.walk_env r "I should move more" s in
     map TodoItem.title (todos sent) = ["Walk"] ∧ habits sent = []).
Proof.
  cbv zeta.
  assert (Hr : reachable today now (SessionSpec.at_click today now))
    by apply reach_step, reach_init.
  split; [exact Hr |]. split; [by apply reach_step |]. split.
  { apply (Session.history_event _ _ (AddTodos gen [SessionSpec.walk_item])
             (SessionSpec.at_click today now) (SessionSpec.after_delete today now));
      [| apply elem_of_cons; right; apply elem_of_cons; by left | done].
    apply (Session.history_event _ _ (DeleteHabit "h1")
             (SessionSpec.at_click today now) (SessionSpec.at_click today now));
      [| apply elem_of_cons; by left | done].
    apply (Session.history_event _ _ (AddHabit "h1" "Walk" (Some health))
             (initialState today now) (initialState today now));
      [apply Session.history_mount | apply elem_of_cons; by left | done]. }
  split; [constructor |].
  rewrite !addTodos_walk_cells; cbn [todos habits].
  split; [reflexivity |]. split; [reflexivity |]. split; [reflexivity |].
  split; reflexivity.
Qed.

(** A single [addHabit] handled in the state it was rendered for does
    nothing when the name is taken, letter case aside. *)
Lemma addHabit_duplicate id name category s :
  ¬ name_free name (habits s) → step (AddHabit id name category) s = s.
Proof.
  intros Htaken. unfold step, handler, addHabit.
  destruct (existsb _ (habits s)) eqn:E; [done |].
  by apply name_free_existsb in E.
Qed.

Lemma addHabit_names_unique id name category s :
  names_unique (habits s) → names_unique (habits (step (AddHabit id name category) s)).
Proof.
  intros Hs. unfold step, handler, addHabit.
  destruct (existsb _ (habits s)) eqn:E; [done |].
  apply name_free_existsb in E. unfold names_unique, setHabits; cbn [habits].
  rewrite map_app. apply NoDup_app. split; [done |]. split.
  - intros x Hx Hx'. cbn in Hx'. apply list_elem_of_singleton in Hx' as ->.
    apply list_elem_of_fmap in Hx as (h & Hh & Hin).
    unfold name_free in E. rewrite Forall_forall in E.
    by apply (E h).
  - cbn. apply NoDup_singleton.
Qed.

(** C4, at the failing input: one [addTodos] whose batch holds "Walk" and
    "walk", in a fresh session, leaves two habits whose names are equal up to
    letter case. Both mirrored [addHabit] calls test the name against the
    habits of the render, where neither is present. *)
Theorem addTodos_batch_duplicate_names (today now : string) (gen : nat → string) :
  let s := step (AddTodos gen [ TodoItem.mkInput "Walk" exercise;
                                TodoItem.mkInput "walk" health ])
             (initialState today now) in
  reachable today now s
  ∧ map HabitItem.name (habits s) = ["Walk"; "walk"]
  ∧ map (λ h, toLowerCase (HabitItem.name h)) (habits s) = ["walk"; "walk"]
  ∧ ¬ names_unique (habits s).
Proof.
  cbn zeta. split; [apply reach_step, reach_init |].
  split; [reflexivity |]. split; [reflexivity |].
  unfold names_unique. cbn. intros Hnd.
  apply NoDup_cons_1_1 in Hnd. apply Hnd. by left.
Qed.

(** *** Streaks *)

Lemma streak_kept_refl h : streak_kept h h.
Proof. repeat split. by left. Qed.

Lemma streak_grown_refl h : streak_grown h h.
Proof. by repeat split. Qed.

Lemma streak_kept_grown h1 h2 h3 :
  streak_kept h1 h2 → streak_grown h2 h3 → streak_grown h1 h3.
Proof.
  intros (Hi & Hn & Hs) (Hi' & Hn' & Hs'). repeat split; [congruence | congruence | lia].
Qed.

Lemma toggle_one_kept today id h : streak_kept h (toggle_one today id h).
Proof.
  unfold toggle_one. case_bool_decide; [| apply streak_kept_refl].
  repeat split; cbn. destruct (HabitItem.completed h); [by left | by right].
Qed.

Lemma filter_lookup_survivor {A} (P : A → Prop) `{!∀ x, Decision (P x)} (l : list A) i x :
  l !! i = Some x → P x → filter P l !! length (filter P (take i l)) = Some x.
Proof.
  intros Hi HP.
  remember (length (filter P (take i l))) as n eqn:En.
  rewrite <- (take_drop_middle l i x Hi).
  rewrite filter_app, filter_cons_True by done.
  apply list_lookup_middle. by rewrite En.
Qed.

(** What one operation does to the habit list, whatever render made the
    closure. *)
Lemma habits_after o r s :
  match o with
  | ToggleHabit today id =>
      habits (handler o r s) = map (toggle_one today id) (habits s)
  | DeleteHabit id =>
      habits (handler o r s) = filter (λ h, HabitItem.id h ≠ id) (habits s)
  | AddHabit _ _ _ | AddTodos _ _ =>
      ∃ news, habits (handler o r s) = habits s ++ news
              ∧ Forall (λ h, HabitItem.streak h = 0 ∧ HabitItem.completed h = false) news
  | _ => habits (handler o r s) = habits s
  end.
Proof.
  destruct o; cbn; try done.
  - rewrite addHabit_appends. eexists; split; [reflexivity | apply new_habits_streak].
  - rewrite addTodos_cells. eexists; split; [reflexivity | apply mirrored_streak].
Qed.

Lemma position_after_kept o r s i j h :
  habits s !! i = Some h →
  position_after o (habits s) i = Some j →
  ∃ h', habits (handler o r s) !! j = Some h' ∧ streak_kept h h'.
Proof.
  intros Hi Hj. pose proof (habits_after o r s) as Ho.
  destruct o; cbn in Hj;
    try (injection Hj as <-; rewrite Ho; exists h; split; [done | apply streak_kept_refl]).
  - (* AddHabit *)
    injection Hj as <-. destruct Ho as (news & -> & _).
    exists h. split; [by apply lookup_app_l_Some | apply streak_kept_refl].
  - (* ToggleHabit *)
    injection Hj as <-. rewrite Ho. exists (toggle_one today id h). split.
    + change (map (toggle_one today id) (habits s))
        with (toggle_one today id <$> habits s).
      by rewrite list_lookup_fmap, Hi.
    + apply toggle_one_kept.
  - (* DeleteHabit *)
    rewrite Hi in Hj. destruct (decide (HabitItem.id h = id)) as [| Hne]; [done |].
    injection Hj as <-. rewrite Ho. exists h. split; [| apply streak_kept_refl].
    by apply filter_lookup_survivor.
  - (* AddTodos *)
    injection Hj as <-. destruct Ho as (news & -> & _).
    exists h. split; [by apply lookup_app_l_Some | apply streak_kept_refl].
Qed.

Lemma track_grown os : ∀ s i j h,
  habits s !! i = Some h →
  track os s i = Some j →
  ∃ h', habits (run os s) !! j = Some h' ∧ streak_grown h h'.
Proof.
  induction os as [| o os IH]; intros s i j h Hi Hj; cbn in *.
  - injection Hj as <-. exists h. split; [done | apply streak_grown_refl].
  - destruct (position_after o (habits s) i) as [k |] eqn:Ek; [| done].
    destruct (position_after_kept o s s i k h Hi Ek) as (h1 & Hk & Hkept).
    destruct (IH (step o s) k j h1 Hk Hj) as (h' & Hj' & Hgrown).
    exists h'. split; [done | by eapply streak_kept_grown].
Qed.

(** C10. One operation, whatever render made its closure: [toggleHabit]
    keeps every habit in place with the same id and name and a streak equal
    or greater by exactly 1; [deleteHabit] leaves a sublist of unchanged
    habits; [addHabit] and [addTodos] leave the existing habits as they were
    and append habits of streak 0; every other operation leaves the habits
    alone. Hence along any run of events a habit, followed by its position,
    keeps its id and name and its streak, a natural number, never
    decreases. *)
Theorem streak_never_decreases :
  (∀ o r s,
     match o with
     | ToggleHabit _ _ => Forall2 streak_kept (habits s) (habits (handler o r s))
     | DeleteHabit _ => sublist (habits (handler o r s)) (habits s)
     | AddHabit _ _ _ | AddTodos _ _ =>
         ∃ news, habits (handler o r s) = habits s ++ news
                 ∧ Forall (λ h, HabitItem.streak h = 0) news
     | _ => habits (handler o r s) = habits s
     end)
  ∧ (∀ o r s i j h,
       habits s !! i = Some h →
       position_after o (habits s) i = Some j →
       ∃ h', habits (handler o r s) !! j = Some h' ∧ streak_kept h h')
  ∧ (∀ os s i j h,
       habits s !! i = Some h →
       track os s i = Some j →
       ∃ h', habits (run os s) !! j = Some h' ∧ streak_grown h h').
Proof.
  split; [| split; [apply position_after_kept | apply track_grown]].
  intros o r s. pose proof (habits_after o r s) as Ho.
  destruct o; try exact Ho.
  - destruct Ho as (news & E & Hnew). exists news. split; [done |].
    eapply Forall_impl; [exact Hnew | by intros ? []].
  - rewrite Ho. clear Ho.
    induction (habits s) as [| h hs IH]; cbn; constructor; [apply toggle_one_kept | exact IH].
  - rewrite Ho. apply sublist_filter.
  - destruct Ho as (news & E & Hnew). exists news. split; [done |].
    eapply Forall_impl; [exact Hnew | by intros ? []].
Qed.

Lemma streak_never_decreases_witness :
  (∃ h', habits (step (DeleteHabit "h0") two_habits) !! 0 = Some h'
         ∧ HabitItem.id h' = "h1"
         ∧ (HabitItem.streak h' = 2 ∨ HabitItem.streak h' = 3))
  ∧ (∃ h', habits (run sample_run sample_state) !! 0 = Some h'
           ∧ HabitItem.id h' = "h1"
           ∧ 2 ≤ HabitItem.streak h').
Proof.
  destruct streak_never_decreases as (_ & Hstep & Hrun).
  split.
  - destruct (Hstep (DeleteHabit "h0") two_habits two_habits 1 0 sample_habit
                eq_refl eq_refl) as (h' & Hh' & Hid & _ & Hstreak).
    exists h'. repeat split; done.
  - destruct (Hrun sample_run sample_state 0 0 sample_habit eq_refl eq_refl)
      as (h' & Hh' & Hid & _ & Hstreak).
    exists h'. repeat split; done.
Defined.

End StoreFacts.

(** ** The chat component *)

Module ChatFacts.
Import Text Regex Store Chat ChatSpec.

Lemma startsWith_append p s : startsWith p (p +:+ s) = true.
Proof.
  induction p as [| a p IH]; [done |].
  change (startsWith (String a p) (String a p +:+ s))
    with (bool_decide (a = a) && startsWith p (p +:+ s)).
  by rewrite bool_decide_eq_true_2, IH.
Qed.

(** When the remote call answers, a message in crisis language gets the
    preamble in front of the answer. *)
Lemma generateBotReply_crisis env history userText reply :
  generateBotReply env history userText = Ok reply →
  crisis userText = true →
  startsWith safety_preamble reply = true.
Proof.
  unfold generateBotReply. intros Hreply Hcrisis.
  destruct (missing (apiKey env)); [done |].
  destruct (chat_remote env _ userText) as [text | e]; [| done].
  rewrite Hcrisis in Hreply. injection Hreply as <-. apply startsWith_append.
Qed.

Lemma pick_fallback_plain env : startsWith safety_preamble (pick_fallback env) = false.
Proof.
  unfold pick_fallback. change (length botResponses) with 7.
  pose proof (Nat.mod_upper_bound (rnd env) 7 ltac:(done)) as Hlt.
  destruct (rnd env mod 7) as [| [| [| [| [| [| [| n]]]]]]];
    solve [vm_compute; reflexivity | lia].
Qed.

(** The reply that [sendMessage] posts: the remote answer (with the preamble
    when [generateBotReply] added it), or a canned response when the call
    threw. *)
Lemma final_reply_cases env s currentMessage :
  truthy (trim currentMessage) = true →
  final_reply env s currentMessage =
  Some
    (match generateBotReply env
             (chatMessages s
                ++ [ChatMessage.mk (msgId env) (trim currentMessage) user (msgTime env)])
             (trim currentMessage) with
     | Ok reply => reply
     | Throw _ => pick_fallback env
     end).
Proof.
  intros Hsent. unfold final_reply, sendMessage. rewrite Hsent. cbn [negb].
  cbv zeta. unfold andThen, addChatMessage at 1, setChatMessages at 1.
  cbn [chatMessages]. by rewrite last_snoc.
Qed.

(** When the remote call answers, the reply posted to a message in crisis
    language starts with the preamble. *)
Lemma final_reply_crisis_when_answered env s currentMessage history reply :
  truthy (trim currentMessage) = true →
  crisis (trim currentMessage) = true →
  history =
    chatMessages s
      ++ [ChatMessage.mk (msgId env) (trim currentMessage) user (msgTime env)] →
  generateBotReply env history (trim currentMessage) = Ok reply →
  final_reply env s currentMessage = Some reply
  ∧ startsWith safety_preamble reply = true.
Proof.
  intros Hsent Hcrisis -> Hreply. rewrite final_reply_cases by done.
  rewrite Hreply. split; [done |]. by eapply generateBotReply_crisis.
Qed.

(** C1, at the failing input: the user sends "I want to end it", which the
    crisis pattern matches. Without an API key, or with a key and a chat call
    that throws, the reply posted is one of the canned responses, and it does
    not start with the safety preamble. *)
Theorem crisis_reply_on_failure_lacks_preamble (env : Env) (s : State) :
  crisis (trim "I want to end it") = true
  ∧ final_reply (without_key env) s "I want to end it" = Some (pick_fallback env)
  ∧ final_reply (with_failing_call "k" env) s "I want to end it" = Some (pick_fallback env)
  ∧ startsWith safety_preamble (pick_fallback env) = false.
Proof.
  split; [vm_compute; reflexivity |].
  split; [| split; [| apply pick_fallback_plain]].
  - by rewrite final_reply_cases.
  - by rewrite final_reply_cases.
Qed.

End ChatFacts.

(** ** Hydration *)

Module HydrationFacts.
Import Text Store Hydration HydrationSpec.

Lemma truthy_nonempty raw : truthy raw = true ↔ raw ≠ "".
Proof. destruct raw; cbn; split; done. Qed.

Section Decoder.
Variable JSON_parse : string → outcome json.

Lemma read_array_stored key localStorage items :
  stored_array JSON_parse key localStorage items →
  read_array JSON_parse key localStorage = Ok (Some items).
Proof.
  intros (raw & Hraw & Hne & Hparse). unfold read_array.
  apply truthy_nonempty in Hne. by rewrite Hraw, Hne, Hparse.
Qed.

Lemma read_array_not_stored key localStorage cur :
  (∀ items, ¬ stored_array JSON_parse key localStorage items) →
  settle (read_array JSON_parse key localStorage) cur = cur.
Proof.
  intros Hnone. unfold read_array.
  destruct (localStorage !! key) as [raw |] eqn:Hraw; [| done].
  destruct (truthy raw) eqn:Htruthy; [| done].
  destruct (JSON_parse raw) as [[| | | | items |] | e] eqn:Hparse; try done.
  exfalso. apply (Hnone items). exists raw. by rewrite truthy_nonempty in Htruthy.
Qed.

Lemma read_chat_stored localStorage items :
  stored_array JSON_parse k_chat localStorage items →
  read_chat JSON_parse localStorage =
  Ok (match items with [] => None | _ :: _ => Some items end).
Proof.
  intros (raw & Hraw & Hne & Hparse). unfold read_chat.
  apply truthy_nonempty in Hne. rewrite Hraw, Hne, Hparse. by destruct items.
Qed.

Lemma read_chat_not_stored localStorage cur :
  (∀ items, stored_array JSON_parse k_chat localStorage items → items = []) →
  settle (read_chat JSON_parse localStorage) cur = cur.
Proof.
  intros Hnone. unfold read_chat.
  destruct (localStorage !! k_chat) as [raw |] eqn:Hraw; [| done].
  destruct (truthy raw) eqn:Htruthy; [| done].
  destruct (JSON_parse raw) as [[| | | | items |] | e] eqn:Hparse; try done.
  rewrite (Hnone items); [done |].
  exists raw. by rewrite truthy_nonempty in Htruthy.
Qed.

End Decoder.

(** C2, as amended. Whatever the decoder: the sleep and the journal
    collections are replaced by the decoded array exactly when the stored
    value is present, not empty, and decodes to an array (an empty array
    included, and with no condition on its elements); the chat collection is
    replaced exactly when, moreover, the array is not empty. In every other
    case the collection in memory is the one returned, and no error leaves
    the functions. *)
Theorem hydration_adopts_arrays
    (JSON_parse : string → outcome json) (localStorage : gmap string string)
    (cur : list json) :
  (∀ items, stored_array JSON_parse k_chat localStorage items → items ≠ [] →
            hydrateChat JSON_parse localStorage cur = items)
  ∧ ((∀ items, stored_array JSON_parse k_chat localStorage items → items = []) →
     hydrateChat JSON_parse localStorage cur = cur)
  ∧ (∀ items, stored_array JSON_parse k_sleep localStorage items →
              hydrateSleep JSON_parse localStorage cur = items)
  ∧ ((∀ items, ¬ stored_array JSON_parse k_sleep localStorage items) →
     hydrateSleep JSON_parse localStorage cur = cur)
  ∧ (∀ items, stored_array JSON_parse k_journal localStorage items →
              hydrateJournal JSON_parse localStorage cur = items)
  ∧ ((∀ items, ¬ stored_array JSON_parse k_journal localStorage items) →
     hydrateJournal JSON_parse localStorage cur = cur).
Proof.
  unfold hydrateChat, hydrateSleep, hydrateJournal. repeat split.
  - intros items Hstored Hne. rewrite (read_chat_stored _ _ items Hstored).
    by destruct items.
  - apply read_chat_not_stored.
  - intros items Hstored. by rewrite (read_array_stored _ _ _ items Hstored).
  - apply read_array_not_stored.
  - intros items Hstored. by rewrite (read_array_stored _ _ _ items Hstored).
  - apply read_array_not_stored.
Qed.

Lemma hydration_adopts_arrays_witness :
  hydrateChat sample_parse sample_storage in_memory = [JNum 1]
  ∧ hydrateChat sample_parse empty_chat_storage in_memory = in_memory
  ∧ hydrateSleep sample_parse sample_storage in_memory = []
  ∧ hydrateSleep sample_parse journal_storage in_memory = in_memory
  ∧ hydrateJournal sample_parse journal_storage in_memory = [JNum 1]
  ∧ hydrateJournal sample_parse sample_storage in_memory = in_memory.
Proof.
  destruct (hydration_adopts_arrays sample_parse sample_storage in_memory)
    as (Hchat & _ & Hsleep & _ & _ & Hjournal).
  destruct (hydration_adopts_arrays sample_parse empty_chat_storage in_memory)
    as (_ & Hchat' & _).
  destruct (hydration_adopts_arrays sample_parse journal_storage in_memory)
    as (_ & _ & _ & Hsleep' & Hjournal' & _).
  split; [| split; [| split; [| split; [| split]]]].
  - apply Hchat; [| done]. exists "[1]". by vm_compute.
  - apply Hchat'. intros items (raw & Hraw & _ & Hparse).
    vm_compute in Hraw. injection Hraw as <-.
    vm_compute in Hparse. by injection Hparse as <-.
  - apply Hsleep. exists "[]". by vm_compute.
  - apply Hsleep'. intros items (raw & Hraw & _ & Hparse).
    vm_compute in Hraw. injection Hraw as <-. by vm_compute in Hparse.
  - apply Hjournal'. exists "[1]". by vm_compute.
  - apply Hjournal. intros items (raw & Hraw & _). by vm_compute in Hraw.
Defined.

(** C2, as stated, fails for the chat collection: the stored value is
    present and decodes to an array all of whose elements are chat records
    (it has none), and hydration keeps the welcome message instead of taking
    the decoded empty array. *)
Lemma hydrateChat_keeps_default_on_empty_array :
  stored_array sample_parse k_chat empty_chat_storage []
  ∧ Forall is_chat_record []
  ∧ hydrateChat sample_parse empty_chat_storage in_memory = in_memory
  ∧ hydrateChat sample_parse empty_chat_storage in_memory ≠ [].
Proof.
  split; [exists "[]"; by vm_compute |].
  split; [constructor |].
  split; [by vm_compute | by vm_compute].
Qed.

End HydrationFacts.

(** ** Trimming *)

Module TextFacts.
Import Text TextSpec.

Lemma trimStart_first s c : first_unit (trimStart s) = Some c → is_space c = false.
Proof.
  induction s as [| a s IH]; cbn; [done |].
  destruct (is_space a) eqn:Ea; [exact IH |]. cbn. by intros [= <-].
Qed.

Lemma trimStart_fixed s :
  (∀ c, first_unit s = Some c → is_space c = false) → trimStart s = s.
Proof. destruct s as [| a s]; cbn; [done |]. intros H. by rewrite (H a). Qed.

Lemma trimEnd_cons a s :
  trimEnd (String a s) =
  match trimEnd s with
  | EmptyString => if is_space a then EmptyString else String a EmptyString
  | rest => String a rest
  end.
Proof. reflexivity. Qed.

(** A text that starts with a unit that is not white space keeps it. *)
Lemma trimEnd_keeps_first a s :
  is_space a = false → ∃ rest, trimEnd (String a s) = String a rest.
Proof.
  intros Ha. rewrite trimEnd_cons, Ha. destruct (trimEnd s); eauto.
Qed.

Lemma trimEnd_first s c :
  (∀ d, first_unit s = Some d → is_space d = false) →
  first_unit (trimEnd s) = Some c → is_space c = false.
Proof.
  destruct s as [| a s]; [done |]. intros H. specialize (H a eq_refl).
  destruct (trimEnd_keeps_first a s H) as (rest & ->). cbn. by intros [= <-].
Qed.

Lemma trimEnd_last s c : last_unit (trimEnd s) = Some c → is_space c = false.
Proof.
  revert c. induction s as [| a s IH]; intros c; [done |].
  rewrite trimEnd_cons. destruct (trimEnd s) as [| b rest] eqn:E.
  - destruct (is_space a) eqn:Ea; [done |]. cbn. by intros [= <-].
  - cbn [last_unit]. specialize (IH c). cbn [last_unit] in IH.
    destruct (match last_unit rest with Some d => Some d | None => Some b end) eqn:El;
      [| by destruct (last_unit rest)].
    intros [= <-]. by apply IH.
Qed.

Lemma trimEnd_fixed s :
  (∀ c, last_unit s = Some c → is_space c = false) → trimEnd s = s.
Proof.
  induction s as [| a s IH]; [done |]. intros H.
  rewrite trimEnd_cons. cbn [last_unit] in H.
  destruct s as [| b s].
  - cbn. by rewrite (H a).
  - rewrite IH.
    + done.
    + intros c Hc. apply H. cbn [last_unit] in Hc |- *. by rewrite Hc.
Qed.

Lemma trim_no_outer_space s : no_outer_space (trim s).
Proof.
  unfold trim. split.
  - intros c. apply trimEnd_first. intros d. apply trimStart_first.
  - intros c. apply trimEnd_last.
Qed.

Lemma trim_fixed s : no_outer_space s → trim s = s.
Proof.
  intros [Hfirst Hlast]. unfold trim.
  rewrite trimStart_fixed by done. by apply trimEnd_fixed.
Qed.

Lemma trim_twice s : trim (trim s) = trim s.
Proof. apply trim_fixed, trim_no_outer_space. Qed.

Lemma trimStart_length s : String.length (trimStart s) ≤ String.length s.
Proof.
  induction s as [| a s IH]; cbn; [done |]. destruct (is_space a); cbn; lia.
Qed.

Lemma trimEnd_length s : String.length (trimEnd s) ≤ String.length s.
Proof.
  induction s as [| a s IH]; [done |]. rewrite trimEnd_cons.
  destruct (trimEnd s) as [| b rest]; [destruct (is_space a) |]; cbn in *; lia.
Qed.

Lemma trim_length s : String.length (trim s) ≤ String.length s.
Proof.
  unfold trim. etransitivity; [apply trimEnd_length | apply trimStart_length].
Qed.

(** A text that starts with a unit that is not white space does not trim
    to nothing. *)
Lemma trim_keeps_first a s :
  is_space a = false → ∃ rest, trim (String a s) = String a rest.
Proof.
  intros Ha. unfold trim. cbn [trimStart]. rewrite Ha.
  by apply trimEnd_keeps_first.
Qed.

Lemma truthy_iff_nonempty s : truthy s = true ↔ s ≠ "".
Proof. by destruct s. Qed.

Lemma truthy_first s : truthy s = true → ∃ c rest, s = String c rest.
Proof. destruct s as [| c rest]; [done | eauto]. Qed.

End TextFacts.

(** ** More on the state store *)

Module StoreLaws.
Import Text Store StoreSpec RunSpec StoreFacts.
Import Session SessionSpec.

(** *** Cells that only grow *)

Lemma handler_moodHistory o r s :
  ∃ news, moodHistory (handler o r s) = news ++ moodHistory s ∧ length news ≤ 1.
Proof.
  destruct o; cbn;
    try (exists []; split; [reflexivity | cbn; lia]).
  - exists [MoodEntry.mk now m note]. split; [reflexivity | cbn; lia].
  - rewrite addHabit_appends. exists []. split; [reflexivity | cbn; lia].
  - rewrite addTodos_cells. exists []. split; [reflexivity | cbn; lia].
Qed.

Lemma handler_chatMessages o r s :
  ∃ news, chatMessages (handler o r s) = chatMessages s ++ news ∧ length news ≤ 1.
Proof.
  destruct o; cbn;
    try (exists []; split; [by rewrite app_nil_r | cbn; lia]).
  - rewrite addHabit_appends. exists []. split; [by rewrite app_nil_r | cbn; lia].
  - rewrite addTodos_cells. exists []. split; [by rewrite app_nil_r | cbn; lia].
  - exists [message]. split; [reflexivity | cbn; lia].
Qed.

Lemma run_cons o os s : run (o :: os) s = run os (step o s).
Proof. reflexivity. Qed.

Lemma run_app os1 os2 s : run (os1 ++ os2) s = run os2 (run os1 s).
Proof. unfold run. apply fold_left_app. Qed.

Lemma run_reachable today now os : ∀ s,
  reachable today now s → reachable today now (run os s).
Proof.
  induction os as [| o os IH]; intros s Hs; [done |].
  rewrite run_cons. apply IH. by apply reach_step.
Qed.

Lemma reachable_moodHistory today now s :
  reachable today now s → ∃ news, moodHistory s = news ++ initialMoodHistory today.
Proof.
  induction 1 as [| s o _ (news & IH)].
  - by exists [].
  - destruct (handler_moodHistory o s s) as (new1 & E & _).
    unfold step. rewrite E, IH. exists (new1 ++ news). by rewrite app_assoc.
Qed.

(** X1. The mood history only grows at its front: after any run of events
    the history is some new entries, at most one per event, followed by the
    history from before. In every state of a session it ends with the entry
    the provider starts with, so it is never empty. *)
Theorem moodHistory_only_grows :
  (∀ os s, ∃ news,
     moodHistory (run os s) = news ++ moodHistory s ∧ length news ≤ length os)
  ∧ (∀ today now s, reachable today now s →
       ∃ news, moodHistory s = news ++ initialMoodHistory today).
Proof.
  split.
  - induction os as [| o os IH]; intros s.
    + exists []. split; [reflexivity | cbn; lia].
    + rewrite run_cons. destruct (IH (step o s)) as (news & -> & Hlen).
      destruct (handler_moodHistory o s s) as (new1 & E & Hlen1).
      unfold step at 1. rewrite E. exists (news ++ new1).
      split; [by rewrite app_assoc |]. rewrite length_app. cbn. lia.
  - apply reachable_moodHistory.
Qed.

Lemma moodHistory_only_grows_witness :
  ∃ news,
    moodHistory (step (AddMoodEntry "2026-01-02T09:00:00.000Z" okay None)
                   (initialState "2026-01-02" "2026-01-02T08:00:00.000Z"))
    = news ++ initialMoodHistory "2026-01-02".
Proof.
  destruct moodHistory_only_grows as [_ Hreach].
  apply (Hreach "2026-01-02" "2026-01-02T08:00:00.000Z").
  apply reach_step, reach_init.
Defined.

(** *** Sessions *)



Lemma history_chatMessages ok init l :
  history ok init l →
  match l with
  | [] => False
  | s :: past =>
      ∃ news, chatMessages s = chatMessages init ++ news ∧ length news ≤ length past
  end.
Proof.
  induction 1 as [| o r s past _ (news & IH & Hlen) _ _].
  - exists []. split; [by rewrite app_nil_r | cbn; lia].
  - destruct (handler_chatMessages o r s) as (new1 & E & Hlen1).
    rewrite E, IH. exists (news ++ new1).
    split; [by rewrite app_assoc |]. rewrite length_app. cbn. lia.
Qed.

Lemma mounted_chatMessages today now chat sleep journal :
  chatMessages (mounted today now chat sleep journal)
  = match chat with
    | Some (m :: ms) => m :: ms
    | _ => [welcome now]
    end.
Proof.
  unfold mounted, hydrate.
  destruct chat as [[| m ms] |], sleep, journal; reflexivity.
Qed.

(** X2. The chat transcript only grows at its end. An operation of the
    store, through the closure of whichever render, leaves the transcript as
    it was or puts one message at its end; so in every state of a session
    the transcript begins with the transcript that the mount left. The mount
    leaves the stored transcript when a non-empty array was stored, as
    [hydrateChat] does on the stored values, and the welcome message
    otherwise: the transcript of a session is never empty. *)
Theorem chatMessages_only_grow :
  (∀ o r s, ∃ news,
     chatMessages (handler o r s) = chatMessages s ++ news ∧ length news ≤ 1)
  ∧ (∀ ok init past s, history ok init (s :: past) →
       ∃ news, chatMessages s = chatMessages init ++ news
               ∧ length news ≤ length past)
  ∧ (∀ today now chat sleep journal,
       chatMessages (mounted today now chat sleep journal)
       = match chat with
         | Some (m :: ms) => m :: ms
         | _ => [welcome now]
         end)
  ∧ (∀ JSON_parse localStorage today now parsed sleep journal,
       Hydration.stored_array JSON_parse Hydration.k_chat localStorage
         (Hydration.of_chat <$> parsed) →
       Hydration.of_chat <$> chatMessages (mounted today now (Some parsed) sleep journal)
       = Hydration.hydrateChat JSON_parse localStorage
           (Hydration.of_chat <$> [welcome now]))
  ∧ (∀ ok today now chat sleep journal past s,
       history ok (mounted today now chat sleep journal) (s :: past) →
       chatMessages s ≠ []).
Proof.
  split; [apply handler_chatMessages |]. split.
  { intros ok init past s Hl. exact (history_chatMessages ok init _ Hl). }
  split; [apply mounted_chatMessages |]. split.
  { intros JSON_parse localStorage today now parsed sleep journal Hstored.
    rewrite mounted_chatMessages. unfold Hydration.hydrateChat.
    rewrite (HydrationFacts.read_chat_stored _ _ _ Hstored).
    by destruct parsed. }
  intros ok today now chat sleep journal past s Hl.
  destruct (history_chatMessages ok _ _ Hl) as (news & E & _).
  rewrite E, mounted_chatMessages.
  by destruct chat as [[| m ms] |].
Qed.

Lemma chatMessages_only_grow_witness :
  let init := mounted "2026-01-02" "2026-01-02T08:00:00.000Z"
                (Some SessionSpec.stored_chat) None None in
  let said := ChatMessage.mk "3" "hello" user "2026-01-02T09:00:00.000Z" in
  ∃ news,
    chatMessages (handler (AddChatMessage said) init init)
    = SessionSpec.stored_chat ++ news
    ∧ length news ≤ 1.
Proof.
  cbv zeta.
  destruct chatMessages_only_grow as (_ & Hhistory & _).
  apply (Hhistory any_event
           (mounted "2026-01-02" "2026-01-02T08:00:00.000Z"
              (Some SessionSpec.stored_chat) None None)
           [mounted "2026-01-02" "2026-01-02T08:00:00.000Z"
              (Some SessionSpec.stored_chat) None None]).
  apply history_event; [apply history_mount | by left | done].
Defined.

(** *** deleteHabit *)

Lemma filter_all {A} (P : A → Prop) `{!∀ x, Decision (P x)} (l : list A) :
  Forall P l → filter P l = l.
Proof.
  induction 1 as [| x l Hx _ IH]; [done |].
  by rewrite filter_cons_True, IH.
Qed.

(** X3. [deleteHabit id] removes every habit whose id is [id] and nothing
    else: afterwards no habit has that id, a habit with another id is in the
    list exactly when it was before, and the other cells are untouched.
    Deleting an id that no habit has leaves the state as it was, so a second
    deletion changes nothing. *)
Theorem deleteHabit_removes (id : string) (s : State) :
  let s' := step (DeleteHabit id) s in
  Forall (λ h, HabitItem.id h ≠ id) (habits s')
  ∧ (∀ h, HabitItem.id h ≠ id → h ∈ habits s' ↔ h ∈ habits s)
  ∧ sublist (habits s') (habits s)
  ∧ (Forall (λ h, HabitItem.id h ≠ id) (habits s) → s' = s)
  ∧ step (DeleteHabit id) s' = s'
  ∧ todayMood s' = todayMood s ∧ moodHistory s' = moodHistory s
  ∧ todos s' = todos s ∧ chatMessages s' = chatMessages s
  ∧ sleepEntries s' = sleepEntries s ∧ journalEntries s' = journalEntries s.
Proof.
  assert (Hgone : Forall (λ h, HabitItem.id h ≠ id)
                    (filter (λ h, HabitItem.id h ≠ id) (habits s))).
  { apply Forall_forall. intros h Hh. by apply list_elem_of_filter in Hh as [? _]. }
  cbv zeta. unfold step, handler, deleteHabit, setHabits; cbn [habits].
  split; [exact Hgone |]. split.
  { intros h Hne. rewrite list_elem_of_filter. tauto. }
  split; [apply sublist_filter |]. split.
  { intros Hnone. rewrite filter_all by done. apply state_eta. }
  split; [| by repeat split].
  by rewrite (filter_all _ _ Hgone).
Qed.

Lemma deleteHabit_removes_witness :
  step (DeleteHabit "zz") two_habits = two_habits.
Proof.
  destruct (deleteHabit_removes "zz" two_habits) as (_ & _ & _ & Hnone & _).
  apply Hnone. by repeat constructor.
Defined.

(** *** Names stay unique *)


Lemma withIds_titles gen items :
  map TodoItem.title (withIds gen items) = map TodoItem.in_title items.
Proof.
  unfold withIds. generalize gen. induction items as [| t items IH]; intros g; [done |].
  cbn. f_equal. apply (IH (g ∘ S)).
Qed.

Lemma new_habits_names r (l : list TodoItem.t) : ∀ idf : nat → TodoItem.t → string,
  map HabitItem.name
    (concat (imap (λ k t, new_habits r (idf k t) (TodoItem.title t)
                            (Some (TodoItem.category t))) l))
  = filter (λ n, name_free n (habits r)) (map TodoItem.title l).
Proof.
  induction l as [| t l IH]; intros idf; [done |].
  cbn [imap concat map]. rewrite map_app.
  assert (Hrest := IH (λ k, idf (S k))). cbn in Hrest.
  unfold new_habits at 1.
  destruct (existsb _ (habits r)) eqn:E.
  - rewrite filter_cons_False; [exact Hrest |].
    rewrite name_free_existsb. by rewrite E.
  - rewrite filter_cons_True by (by rewrite name_free_existsb).
    cbn. f_equal. exact Hrest.
Qed.

(** The names mirrored by a batch: the titles that no habit of the render
    has, in the order of the batch. *)
Lemma mirrored_names r gen items :
  map HabitItem.name (mirrored r gen items) =
  filter (λ n, name_free n (habits r)) (map TodoItem.in_title items).
Proof.
  unfold mirrored. rewrite <- (withIds_titles gen).
  apply (new_habits_names r (withIds gen items) (λ k _, gen (length items + k))).
Qed.

Lemma mirrored_names_unique r gen items (hs : list HabitItem.t) :
  batch_distinct items →
  lower_names hs ⊆ lower_names (habits r) →
  NoDup (lower_names hs) →
  NoDup (lower_names (hs ++ mirrored r gen items)).
Proof.
  intros Hbatch Hseen Hs. unfold lower_names in *. rewrite map_app. apply NoDup_app.
  rewrite <- (List.map_map HabitItem.name toLowerCase (mirrored r gen items)).
  rewrite mirrored_names.
  split; [exact Hs |]. split.
  - intros x Hx Hx'.
    apply list_elem_of_fmap in Hx' as (n & -> & Hn).
    apply list_elem_of_filter in Hn as [Hfree _].
    apply Hseen in Hx. apply list_elem_of_fmap in Hx as (h & Hh & Hin).
    unfold name_free in Hfree. rewrite Forall_forall in Hfree.
    by apply (Hfree h).
  - eapply sublist_NoDup.
    + exact Hbatch.
    + unfold batch_distinct.
      rewrite <- (List.map_map TodoItem.in_title toLowerCase items).
      apply (fmap_sublist toLowerCase), sublist_filter.
Qed.





(** *** addTodos *)

Lemma withIds_length gen items : length (withIds gen items) = length items.
Proof. unfold withIds. apply length_imap. Qed.

Lemma withIds_pending gen items :
  Forall (λ t, TodoItem.completed t = false) (withIds gen items).
Proof. unfold withIds. apply Forall_imap. done. Qed.

Lemma mirrored_length r gen items : length (mirrored r gen items) ≤ length items.
Proof.
  rewrite <- (length_map HabitItem.name), mirrored_names.
  etransitivity; [apply length_filter |]. by rewrite length_map.
Qed.

(** X5. [addTodos] never drops, merges or completes a todo: a batch of [n]
    items puts exactly [n] new todos, none completed, with the titles of the
    batch in its order, in front of the todos from before. The habits from
    before stay in place, followed by at most [n] new ones. With an empty
    batch the state is unchanged. *)
Theorem addTodos_counts (r : State) (gen : nat → string) (items : list TodoItem.input)
    (s : State) :
  let s' := addTodos r gen items s in
  (∃ news, todos s' = news ++ todos s
           ∧ length news = length items
           ∧ map TodoItem.title news = map TodoItem.in_title items
           ∧ map TodoItem.category news = map TodoItem.in_category items
           ∧ Forall (λ t, TodoItem.completed t = false) news)
  ∧ (∃ mirrored, habits s' = habits s ++ mirrored ∧ length mirrored ≤ length items)
  ∧ (items = [] → s' = s).
Proof.
  cbv zeta. rewrite addTodos_cells; cbn [todos habits]. split; [| split].
  - exists (withIds gen items).
    split; [done |]. split; [apply withIds_length |].
    split; [apply withIds_titles |]. split; [| apply withIds_pending].
    unfold withIds. generalize gen.
    induction items as [| t items IH]; intros g; [done |].
    cbn. f_equal. apply (IH (g ∘ S)).
  - exists (mirrored r gen items). split; [done | apply mirrored_length].
  - intros ->. cbn. rewrite app_nil_r. apply state_eta.
Qed.

Lemma addTodos_counts_witness :
  addTodos two_habits (λ k, "g") [] two_habits = two_habits.
Proof.
  destruct (addTodos_counts two_habits (λ k, "g") [] two_habits) as (_ & _ & Hempty).
  by apply Hempty.
Defined.

(** *** The journal *)

Lemma merge_id e p : JournalEntry.id (JournalEntry.merge e p) = JournalEntry.id e.
Proof. reflexivity. Qed.

Lemma merge_twice e p :
  JournalEntry.merge (JournalEntry.merge e p) p = JournalEntry.merge e p.
Proof.
  destruct e, p as [[?|] [?|] [?|] [?|]]; reflexivity.
Qed.

Lemma updateJournalEntry_cells id p s :
  journalEntries (updateJournalEntry id p s) = map (patch_one id p) (journalEntries s).
Proof. reflexivity. Qed.

(** X6. [updateJournalEntry id patch] keeps the entries in place with their
    ids: an entry whose id is [id] takes the fields the patch carries and
    keeps the others, an entry with another id is unchanged. With an id that
    no entry has the state is unchanged; applying the same update a second
    time changes nothing. *)
Theorem updateJournalEntry_in_place (id : string) (p : JournalEntry.patch) (s : State) :
  let s' := step (UpdateJournalEntry id p) s in
  map JournalEntry.id (journalEntries s') = map JournalEntry.id (journalEntries s)
  ∧ Forall2 (λ e e',
       (JournalEntry.id e = id →
          JournalEntry.title e' = default (JournalEntry.title e) (JournalEntry.p_title p)
          ∧ JournalEntry.content e'
              = default (JournalEntry.content e) (JournalEntry.p_content p)
          ∧ JournalEntry.date e' = default (JournalEntry.date e) (JournalEntry.p_date p)
          ∧ JournalEntry.mood e' = default (JournalEntry.mood e) (JournalEntry.p_mood p))
       ∧ (JournalEntry.id e ≠ id → e' = e))
      (journalEntries s) (journalEntries s')
  ∧ (Forall (λ e, JournalEntry.id e ≠ id) (journalEntries s) → s' = s)
  ∧ step (UpdateJournalEntry id p) s' = s'.
Proof.
  cbv zeta. unfold step, handler.
  assert (Hone : ∀ e, patch_one id p (patch_one id p e) = patch_one id p e).
  { intros e. unfold patch_one.
    destruct (decide (JournalEntry.id e = id)) as [Heq | Hne].
    - rewrite (bool_decide_eq_true_2 _ Heq).
      rewrite bool_decide_eq_true_2 by (by rewrite merge_id). apply merge_twice.
    - rewrite (bool_decide_eq_false_2 _ Hne). by rewrite bool_decide_eq_false_2. }
  split; [| split; [| split]].
  - rewrite updateJournalEntry_cells, List.map_map.
    apply map_ext. intros e. unfold patch_one. by case_bool_decide.
  - rewrite updateJournalEntry_cells.
    induction (journalEntries s) as [| e es IH]; cbn; constructor; [| exact IH].
    unfold patch_one. case_bool_decide; split; done.
  - intros Hnone. unfold updateJournalEntry, setJournalEntries.
    fold (patch_one id p).
    replace (map (patch_one id p) (journalEntries s)) with (journalEntries s);
      [apply state_eta |].
    induction Hnone as [| e es He _ IH]; [done |].
    cbn. rewrite <- IH. f_equal. unfold patch_one. by rewrite bool_decide_eq_false_2.
  - unfold updateJournalEntry, setJournalEntries; cbn. f_equal.
    fold (patch_one id p). rewrite List.map_map. apply map_ext, Hone.
Qed.

Lemma updateJournalEntry_in_place_witness :
  let s := step (AddJournalEntry "j1" sample_journal)
             (initialState "2026-01-02" "2026-01-02T08:00:00.000Z") in
  (∃ e', journalEntries (step (UpdateJournalEntry "j1" sample_patch) s) = [e']
         ∧ JournalEntry.title e' = "Night"
         ∧ JournalEntry.date e' = "2026-01-02")
  ∧ step (UpdateJournalEntry "zz" sample_patch) s = s.
Proof.
  cbv zeta. split.
  - destruct (updateJournalEntry_in_place "j1" sample_patch
                (step (AddJournalEntry "j1" sample_journal)
                   (initialState "2026-01-02" "2026-01-02T08:00:00.000Z")))
      as (_ & Hall & _).
    apply Forall2_cons_inv_l in Hall as (e' & rest & [Hyes _] & Hrest & Ees).
    apply Forall2_nil_inv_l in Hrest as ->.
    destruct (Hyes eq_refl) as (Ht & _ & Hd & _).
    exists e'. split; [exact Ees |]. split; [exact Ht | exact Hd].
  - destruct (updateJournalEntry_in_place "zz" sample_patch
                (step (AddJournalEntry "j1" sample_journal)
                   (initialState "2026-01-02" "2026-01-02T08:00:00.000Z")))
      as (_ & _ & Hnone & _).
    apply Hnone. by repeat constructor.
Defined.

(** X7. [addJournalEntry] puts the new entry, with the generated id and the
    fields given, in front of the journal and touches nothing else; when no
    entry has that id yet, deleting it again gives back the state from
    before. [deleteJournalEntry id] leaves no entry with the id and keeps
    every other entry. *)
Theorem journal_add_delete (id : string) (e : JournalEntry.input) (s : State) :
  journalEntries (step (AddJournalEntry id e) s)
    = JournalEntry.with_id id e :: journalEntries s
  ∧ (Forall (λ x, JournalEntry.id x ≠ id) (journalEntries s) →
     step (DeleteJournalEntry id) (step (AddJournalEntry id e) s) = s)
  ∧ Forall (λ x, JournalEntry.id x ≠ id)
      (journalEntries (step (DeleteJournalEntry id) s))
  ∧ (∀ x, JournalEntry.id x ≠ id →
          x ∈ journalEntries (step (DeleteJournalEntry id) s) ↔ x ∈ journalEntries s).
Proof.
  split; [reflexivity |]. split; [| split].
  - intros Hfresh. unfold step, handler, deleteJournalEntry, addJournalEntry,
      setJournalEntries;
      cbn [todayMood moodHistory habits todos chatMessages sleepEntries journalEntries].
    rewrite filter_cons_False by (intros H; by apply H).
    rewrite filter_all by done. apply state_eta.
  - apply Forall_forall. intros x Hx. cbn in Hx.
    by apply list_elem_of_filter in Hx as [? _].
  - intros x Hne. cbn. rewrite list_elem_of_filter. tauto.
Qed.

Lemma journal_add_delete_witness :
  step (DeleteJournalEntry "j1")
    (step (AddJournalEntry "j1" sample_journal) two_habits) = two_habits.
Proof.
  destruct (journal_add_delete "j1" sample_journal two_habits) as (_ & Hback & _).
  apply Hback. constructor.
Defined.

End StoreLaws.

(** ** More on the chat component *)

Module ChatLaws.
Import Text Regex Fallback Store Chat.
Import FallbackSpec StoreSpec RunSpec SendSpec ChatSpec SessionSpec.
Import FallbackFacts StoreFacts StoreLaws ChatFacts.

(** *** The classification *)

(** A property of the todo list of [fallbackAnalyze], settled on each of the
    sixteen outcomes of the four keyword tests. *)
Ltac on_each_rule_outcome text :=
  unfold fallbackAnalyze; cbn [Fallback.todos];
  rewrite rule_todos_rules_of;
  generalize (test false re_breathing (toLowerCase text))
             (test false re_sleep (toLowerCase text))
             (test false re_journal (toLowerCase text))
             (test false re_walk (toLowerCase text));
  intros [] [] [] [].

Lemma fallback_todos_five text : length (Fallback.todos (fallbackAnalyze text)) = 5.
Proof. on_each_rule_outcome text; vm_compute; reflexivity. Qed.

Lemma fallback_titles_nonempty text :
  Forall (λ x, title x ≠ "") (Fallback.todos (fallbackAnalyze text)).
Proof. on_each_rule_outcome text; by_evaluation. Qed.

Lemma fallback_titles_distinct text :
  NoDup (map (λ x, toLowerCase (title x)) (Fallback.todos (fallbackAnalyze text))).
Proof. on_each_rule_outcome text; by_evaluation. Qed.

Lemma positive_length_nonempty (t : string) : 0 < String.length t → t ≠ "".
Proof. destruct t; cbn; [lia | done]. Qed.

(** The list kept from a decoded answer. *)
Lemma capped_bounds (ts : list RawTodo) :
  let capped :=
    filter (fun t => 0 < String.length (title t))
      (map (fun t => mkSuggestion (trim (raw_title t)) (default health (raw_category t)))
         (take 5 ts)) in
  length capped ≤ 5 ∧ Forall (λ x, title x ≠ "") capped.
Proof.
  cbv zeta. split.
  - etransitivity; [apply length_filter |].
    rewrite length_map, length_take. lia.
  - apply Forall_forall. intros x Hx.
    apply list_elem_of_filter in Hx as [Hpos _]. by apply positive_length_nonempty.
Qed.

(** X8. Whatever the key and the remote classification do, [analyzeUserText]
    returns between 1 and 5 todos, none with an empty title. Without a key,
    when the remote call throws, and when the decoded answer has no mood or
    no todo array, the result is the one of the local rules; when the answer
    has a mood and an array but no todo with a title, the mood is the
    answer's and the todos are those of the local rules. *)
Theorem analyzeUserText_bounds (env : Env) (userText : string) :
  let a := analyzeUserText env userText in
  1 ≤ length (Fallback.todos a) ≤ 5
  ∧ Forall (λ x, title x ≠ "") (Fallback.todos a)
  ∧ (missing (apiKey env) = true → a = fallbackAnalyze userText)
  ∧ (∀ e, classify_remote env userText = Throw e → a = fallbackAnalyze userText)
  ∧ (∀ parsed, classify_remote env userText = Ok parsed →
       raw_mood parsed = None ∨ raw_todos parsed = None →
       a = fallbackAnalyze userText)
  ∧ (∀ m ts, missing (apiKey env) = false →
       classify_remote env userText = Ok (mkRawAnalysis (Some m) (Some ts)) →
       Forall (λ t, trim (raw_title t) = "") ts →
       a = mkAnalyzed m (Fallback.todos (fallbackAnalyze userText))).
Proof.
  cbv zeta.
  assert (Hfb : 1 ≤ length (Fallback.todos (fallbackAnalyze userText)) ≤ 5
                ∧ Forall (λ x, title x ≠ "") (Fallback.todos (fallbackAnalyze userText))).
  { rewrite fallback_todos_five. split; [lia | apply fallback_titles_nonempty]. }
  unfold analyzeUserText.
  destruct (missing (apiKey env)) eqn:Hkey.
  { destruct Hfb as [[? ?] ?]. repeat split; try done. }
  destruct (classify_remote env userText) as [[[m |] [ts |]] | e] eqn:Hremote;
    cbn [raw_mood raw_todos];
    try (destruct Hfb as [[? ?] ?]; repeat split; try done;
         solve [ intros parsed [= <-] [? | ?]; done | intros m' ts' _ [= ] ]).
  - (* a mood and an array *)
    destruct (capped_bounds ts) as [Hlen Htitles].
    destruct (filter _ _) as [| x capped] eqn:Ecapped; cbn [Fallback.todos].
    + destruct Hfb as [[? ?] ?]. repeat split; try done.
      * intros parsed [= <-] [? | ?]; done.
      * by intros m' ts' _ [= <- <-] _.
    + split; [cbn in *; lia |]. split; [exact Htitles |].
      split; [done |]. split; [done |]. split.
      * intros parsed [= <-] [? | ?]; done.
      * intros m' ts' _ [= <- <-] Hblank. exfalso.
        assert (Hin : x ∈ x :: capped) by left.
        rewrite <- Ecapped in Hin. apply list_elem_of_filter in Hin as [Hpos Hin].
        apply list_elem_of_fmap in Hin as (t & -> & Ht).
        rewrite Forall_forall in Hblank.
        cbn in Hpos. rewrite (Hblank t) in Hpos; [cbn in Hpos; lia |].
        by eapply subseteq_take.
Qed.

Lemma analyzeUserText_bounds_witness :
  analyzeUserText quiet_env "so tired" = fallbackAnalyze "so tired"
  ∧ analyzeUserText (classifying_env (Throw "503")) "so tired" = fallbackAnalyze "so tired"
  ∧ analyzeUserText (classifying_env (Ok (mkRawAnalysis None (Some [])))) "so tired"
    = fallbackAnalyze "so tired"
  ∧ analyzeUserText
      (classifying_env (Ok (mkRawAnalysis (Some awful) (Some [mkRawTodo "  " None]))))
      "so tired"
    = mkAnalyzed awful (Fallback.todos (fallbackAnalyze "so tired")).
Proof.
  split; [| split; [| split]].
  - by apply (analyzeUserText_bounds quiet_env "so tired").
  - destruct (analyzeUserText_bounds (classifying_env (Throw "503")) "so tired")
      as (_ & _ & _ & Hthrow & _).
    by apply (Hthrow "503").
  - destruct (analyzeUserText_bounds
                (classifying_env (Ok (mkRawAnalysis None (Some [])))) "so tired")
      as (_ & _ & _ & _ & Hmalformed & _).
    apply (Hmalformed (mkRawAnalysis None (Some []))); [done | by left].
  - destruct (analyzeUserText_bounds
                (classifying_env
                   (Ok (mkRawAnalysis (Some awful) (Some [mkRawTodo "  " None]))))
                "so tired")
      as (_ & _ & _ & _ & _ & Hblank).
    apply (Hblank awful [mkRawTodo "  " None]); [done | done |].
    by repeat constructor.
Defined.

(** *** One send *)

Lemma sendMessage_run env s currentMessage :
  truthy (trim currentMessage) = true →
  sendMessage env s currentMessage s = run (send_run env s currentMessage) s.
Proof.
  intros Hsent. unfold sendMessage. rewrite Hsent. cbn [negb].
  cbv zeta. fold (userMessage_of env currentMessage).
  fold (reply_of env s currentMessage). fold (botMessage_of env s currentMessage).
  unfold send_run, send_ops. rewrite !run_app.
  destruct (Fallback.todos (analyzeUserText env (trim currentMessage)))
    as [| t ts] eqn:Etodos.
  - reflexivity.
  - (* the batch is mirrored against the habits of [s], which the two
       operations before it leave as they are *)
    reflexivity.
Qed.

(** X9. A send with a blank input box does nothing. Any other send is the
    run of four store operations from the state it was made for: the user's
    message, the mood entry, the batch of todos and the bot's message. So a
    send leads from a state of the session to a state of the session. *)
Theorem sendMessage_as_run (env : Env) (s : State) (currentMessage : string) :
  (truthy (trim currentMessage) = false → sendMessage env s currentMessage s = s)
  ∧ (truthy (trim currentMessage) = true →
     sendMessage env s currentMessage s = run (send_run env s currentMessage) s)
  ∧ (∀ today now, reachable today now s →
       reachable today now (sendMessage env s currentMessage s)).
Proof.
  split; [| split].
  - intros Hblank. unfold sendMessage. by rewrite Hblank.
  - apply sendMessage_run.
  - intros today now Hs. destruct (truthy (trim currentMessage)) eqn:Hsent.
    + rewrite sendMessage_run by done. by apply run_reachable.
    + unfold sendMessage. by rewrite Hsent.
Qed.

Lemma sendMessage_as_run_witness :
  let s0 := initialState "2026-01-02" "2026-01-02T08:00:00.000Z" in
  sendMessage quiet_env s0 "   " s0 = s0
  ∧ length (chatMessages (sendMessage quiet_env s0 " so tired " s0)) = 3
  ∧ reachable "2026-01-02" "2026-01-02T08:00:00.000Z"
      (sendMessage quiet_env s0 " so tired " s0).
Proof.
  cbv zeta.
  destruct (sendMessage_as_run quiet_env
              (initialState "2026-01-02" "2026-01-02T08:00:00.000Z") "   ")
    as (Hblank & _).
  destruct (sendMessage_as_run quiet_env
              (initialState "2026-01-02" "2026-01-02T08:00:00.000Z") " so tired ")
    as (_ & Hrun & Hreach).
  split; [by apply Hblank |]. split.
  - rewrite Hrun by done. by vm_compute.
  - apply Hreach, reach_init.
Defined.

(** X10. What one send with a non-blank input changes: the transcript gets
    the user's message (the trimmed input) and then the bot's message, in
    this order and nothing else; the mood history gets one entry in front,
    with the mood of the classification, which also becomes today's mood;
    the todos get between 1 and 5 new entries in front; the habits from
    before stay in place, followed by at most 5 new ones; the sleep and the
    journal entries are untouched. *)
Theorem sendMessage_effect (env : Env) (s : State) (currentMessage : string) :
  truthy (trim currentMessage) = true →
  let s' := sendMessage env s currentMessage s in
  let a := analyzeUserText env (trim currentMessage) in
  chatMessages s' =
    chatMessages s ++ [userMessage_of env currentMessage; botMessage_of env s currentMessage]
  ∧ moodHistory s' =
      MoodEntry.mk (moodTime env) (Fallback.mood a) (Some "Auto-detected from chat")
        :: moodHistory s
  ∧ todayMood s' = Some (Fallback.mood a)
  ∧ (∃ news, Store.todos s' = news ++ Store.todos s
             ∧ 1 ≤ length news ≤ 5
             ∧ map TodoItem.title news = map Fallback.title (Fallback.todos a))
  ∧ (∃ news, habits s' = habits s ++ news ∧ length news ≤ 5)
  ∧ sleepEntries s' = sleepEntries s
  ∧ journalEntries s' = journalEntries s.
Proof.
  intros Hsent. cbv zeta.
  assert (Hlen : 1 ≤ length (Fallback.todos (analyzeUserText env (trim currentMessage))) ≤ 5).
  { pose proof (fallback_todos_five (trim currentMessage)) as Hfive.
    unfold analyzeUserText.
    destruct (missing (apiKey env)); [lia |].
    destruct (classify_remote env _) as [[[m |] [ts |]] | e];
      cbn [raw_mood raw_todos]; try lia.
    destruct (capped_bounds ts) as [Hcap _].
    destruct (filter _ _) as [| x capped]; cbn [Fallback.todos]; cbn in *; lia. }
  unfold sendMessage. rewrite Hsent. cbn [negb]. cbv zeta.
  fold (userMessage_of env currentMessage).
  fold (reply_of env s currentMessage). fold (botMessage_of env s currentMessage).
  destruct (Fallback.todos (analyzeUserText env (trim currentMessage)))
    as [| t ts] eqn:Etodos; [cbn in Hlen; lia |].
  unfold andThen. rewrite addTodos_cells.
  unfold addChatMessage, addMoodEntry, andThen, setChatMessages, setMoodHistory,
    setTodayMoodState;
    cbn [chatMessages moodHistory todayMood Store.todos habits sleepEntries journalEntries].
  split; [by rewrite <- app_assoc |]. split; [done |]. split; [done |].
  split; [| split; [| done]].
  - eexists. split; [reflexivity |]. rewrite withIds_length, length_map.
    split; [exact Hlen |].
    by rewrite withIds_titles, List.map_map.
  - eexists. split; [reflexivity |].
    etransitivity; [apply mirrored_length |].
    rewrite length_map. exact (proj2 Hlen).
Qed.

Lemma sendMessage_effect_witness :
  let s0 := initialState "2026-01-02" "2026-01-02T08:00:00.000Z" in
  let s' := sendMessage answering_env s0 " I feel fine " s0 in
  map ChatMessage.text (chatMessages s')
    = [ ChatMessage.text (welcome "2026-01-02T08:00:00.000Z");
        "I feel fine"; "Take a slow breath." ]
  ∧ map TodoItem.title (Store.todos s') = ["Stretch"]
  ∧ todayMood s' = Some okay.
Proof.
  cbv zeta.
  destruct (sendMessage_effect answering_env
              (initialState "2026-01-02" "2026-01-02T08:00:00.000Z") " I feel fine "
              eq_refl)
    as (Hchat & _ & Hmood & (news & Htodos & _ & Htitles) & _).
  split; [by rewrite Hchat |]. split; [| by rewrite Hmood].
  rewrite Htodos, map_app, Htitles. reflexivity.
Defined.

(** The habits after a send made by the render that saw [r]: those of the
    current state, then the ones mirrored against the habits of [r]. *)
Lemma sendMessage_habits env r currentMessage s :
  habits (sendMessage env r currentMessage s)
  = habits s
    ++ (if truthy (trim currentMessage) then
          mirrored r (gen env)
            (map (λ t, TodoItem.mkInput (Fallback.title t) (Fallback.category t))
               (Fallback.todos (analyzeUserText env (trim currentMessage))))
        else []).
Proof.
  unfold sendMessage. destruct (truthy (trim currentMessage)); cbn [negb].
  - cbv zeta.
    destruct (Fallback.todos (analyzeUserText env (trim currentMessage))) as [| t ts].
    + cbn. by rewrite app_nil_r.
    + unfold andThen. rewrite addTodos_cells. reflexivity.
  - cbn. by rewrite app_nil_r.
Qed.

(** X11. A send made by the render that saw [r], taking effect in the
    state [s], keeps the habit names unique, letter case aside, when the
    titles of the classification are pairwise different, letter case aside,
    and every habit name of [s] was already a habit name in [r]. The first
    condition always holds when the classification is the one of the local
    rules, in particular without an API key. The second one is needed: when
    a habit "stretch" is added while the classification is awaited and the
    classification answers "Stretch", the send leaves both. *)
Theorem sendMessage_names_unique (env : Env) (r s : State) (currentMessage : string) :
  (NoDup (map (λ x, toLowerCase (title x))
            (Fallback.todos (analyzeUserText env (trim currentMessage)))) →
   no_habit_since r s →
   names_unique (habits s) →
   names_unique (habits (sendMessage env r currentMessage s)))
  ∧ (missing (apiKey env) = true →
     no_habit_since r s →
     names_unique (habits s) →
     names_unique (habits (sendMessage env r currentMessage s)))
  ∧ (names_unique (habits added_meanwhile)
     ∧ lower_names
         (habits (sendMessage answering_env fresh_click " I feel fine " added_meanwhile))
       = ["stretch"; "stretch"]
     ∧ ¬ names_unique
           (habits (sendMessage answering_env fresh_click " I feel fine "
                      added_meanwhile))).
Proof.
  assert (Hgen : NoDup (map (λ x, toLowerCase (title x))
                          (Fallback.todos (analyzeUserText env (trim currentMessage)))) →
                 no_habit_since r s →
                 names_unique (habits s) →
                 names_unique (habits (sendMessage env r currentMessage s))).
  { intros Hdistinct Hseen Hs. rewrite sendMessage_habits.
    destruct (truthy (trim currentMessage)); [| by rewrite app_nil_r].
    apply mirrored_names_unique; [| done | done].
    unfold batch_distinct. by rewrite List.map_map. }
  split; [exact Hgen |]. split.
  - intros Hkey. apply Hgen. unfold analyzeUserText. rewrite Hkey.
    apply fallback_titles_distinct.
  - split; [by_evaluation |]. split; [reflexivity |].
    unfold names_unique.
    change (map (λ h, toLowerCase (HabitItem.name h))
              (habits (sendMessage answering_env fresh_click " I feel fine "
                         added_meanwhile)))
      with ["stretch"; "stretch"].
    intros Hnd. apply NoDup_cons_1_1 in Hnd. apply Hnd. by left.
Qed.

Lemma sendMessage_names_unique_witness :
  names_unique
    (habits (sendMessage quiet_env two_habits "I am sad and tired"
               (step (DeleteHabit "h1") two_habits))).
Proof.
  destruct (sendMessage_names_unique quiet_env two_habits
              (step (DeleteHabit "h1") two_habits) "I am sad and tired")
    as (_ & Hlocal & _).
  apply Hlocal; [done | | by_evaluation].
  intros x Hx. apply elem_of_cons. left.
  by apply list_elem_of_singleton in Hx.
Defined.

(** *** The transcript for the remote call *)

Lemma from_first_user_split history :
  ∃ dropped,
    history = dropped ++ from_first_user history
    ∧ Forall (λ m, ChatMessage.sender m = bot) dropped.
Proof.
  induction history as [| m rest (dropped & E & Hbot)]; [by exists [] |].
  cbn. case_bool_decide as Hu.
  - by exists [].
  - exists (m :: dropped). split; [by rewrite E at 1 |].
    constructor; [| done]. by destruct (ChatMessage.sender m).
Qed.

Lemma from_first_user_head history :
  match from_first_user history with
  | [] => True
  | m :: _ => ChatMessage.sender m = user
  end.
Proof.
  induction history as [| m rest IH]; [done |].
  cbn. by case_bool_decide.
Qed.

Lemma from_first_user_snoc history u :
  ChatMessage.sender u = user →
  from_first_user (history ++ [u]) = from_first_user history ++ [u].
Proof.
  intros Hu. induction history as [| m rest IH]; cbn.
  - by rewrite bool_decide_eq_true_2.
  - by case_bool_decide.
Qed.

(** X12. The history handed to the remote chat call is the transcript from
    its first user message on: what is left out in front are bot messages
    only, and what is kept starts with a user message. In a send, where the
    history is the transcript followed by the message being sent, it is
    never empty and ends with that message. *)
Theorem chat_history_from_first_user (history : list ChatMessage.t) (u : ChatMessage.t) :
  (∃ dropped,
     history = dropped ++ from_first_user history
     ∧ Forall (λ m, ChatMessage.sender m = bot) dropped)
  ∧ (∀ m rest, from_first_user history = m :: rest → ChatMessage.sender m = user)
  ∧ (ChatMessage.sender u = user →
     from_first_user (history ++ [u]) = from_first_user history ++ [u]
     ∧ last (transcript (history ++ [u])) = Some (user, ChatMessage.text u)).
Proof.
  split; [apply from_first_user_split |]. split.
  - intros m rest E. pose proof (from_first_user_head history) as H.
    by rewrite E in H.
  - intros Hu. split; [by apply from_first_user_snoc |].
    unfold transcript. rewrite from_first_user_snoc by done.
    rewrite map_app. cbn [map]. rewrite last_snoc. by rewrite Hu.
Qed.

Lemma chat_history_from_first_user_witness :
  from_first_user
    ([welcome "2026-01-02T08:00:00.000Z"] ++ [userMessage_of quiet_env " hello "])
  = [userMessage_of quiet_env " hello "].
Proof.
  destruct (chat_history_from_first_user [welcome "2026-01-02T08:00:00.000Z"]
              (userMessage_of quiet_env " hello ")) as (_ & _ & Hsend).
  destruct (Hsend eq_refl) as [E _]. exact E.
Defined.

(** *** The reply *)

(** X13. With a key and a remote chat call that answers, the reply posted is
    the answer itself when the message is outside the crisis language, and
    the safety preamble followed by the answer otherwise; the remote call is
    given the transcript from the first user message on and the trimmed
    input. Without a key the remote call is not consulted: the reply is the
    canned response whatever the call would answer. *)
Theorem reply_when_answered (env : Env) (s : State) (currentMessage answer : string) :
  truthy (trim currentMessage) = true →
  (missing (apiKey env) = false →
   chat_remote env (transcript (chatMessages s ++ [userMessage_of env currentMessage]))
     (trim currentMessage) = Ok answer →
   final_reply env s currentMessage =
   Some (if crisis (trim currentMessage) then safety_preamble +:+ answer else answer))
  ∧ (missing (apiKey env) = true →
     final_reply env s currentMessage = Some (pick_fallback env)).
Proof.
  intros Hsent. rewrite final_reply_cases by done.
  fold (userMessage_of env currentMessage). unfold generateBotReply.
  split.
  - intros Hkey Hanswer. rewrite Hkey.
    fold (transcript (chatMessages s ++ [userMessage_of env currentMessage])).
    rewrite Hanswer. by destruct (crisis (trim currentMessage)).
  - intros Hkey. by rewrite Hkey.
Qed.

Lemma reply_when_answered_witness :
  let s0 := initialState "2026-01-02" "2026-01-02T08:00:00.000Z" in
  final_reply answering_env s0 " I feel fine " = Some "Take a slow breath."
  ∧ final_reply quiet_env s0 " I feel fine "
    = Some "I understand. Sometimes just talking about it can help. Is there anything specific on your mind?".
Proof.
  cbv zeta. split.
  - destruct (reply_when_answered answering_env
                (initialState "2026-01-02" "2026-01-02T08:00:00.000Z")
                " I feel fine " "Take a slow breath." eq_refl) as [Hanswered _].
    rewrite Hanswered by done. by vm_compute.
  - destruct (reply_when_answered quiet_env
                (initialState "2026-01-02" "2026-01-02T08:00:00.000Z")
                " I feel fine " "" eq_refl) as [_ Hcanned].
    rewrite Hcanned by done. by vm_compute.
Defined.

End ChatLaws.

(** ** The patterns *)

Module RegexFacts.
Import Text Regex RegexSpec.

(** *** Strings *)

Lemma sapp_cons a (s t : string) : String a s +:+ t = String a (s +:+ t).
Proof. reflexivity. Qed.

Lemma sapp_nil_r (s : string) : s +:+ "" = s.
Proof. induction s as [| a s IH]; [done |]. by rewrite sapp_cons, IH. Qed.

Lemma sapp_assoc (a b c : string) : (a +:+ b) +:+ c = a +:+ (b +:+ c).
Proof. induction a as [| x a IH]; [done |]. by rewrite !sapp_cons, IH. Qed.

Lemma toLowerCase_app (a b : string) :
  toLowerCase (a +:+ b) = toLowerCase a +:+ toLowerCase b.
Proof.
  induction a as [| x a IH]; [done |].
  rewrite sapp_cons. cbn [toLowerCase]. by rewrite IH.
Qed.

Lemma toLowerCase_split (s a b : string) :
  toLowerCase s = a +:+ b →
  ∃ s1 s2, s = s1 +:+ s2 ∧ toLowerCase s1 = a ∧ toLowerCase s2 = b.
Proof.
  revert s. induction a as [| x a IH]; intros s E.
  - by exists "", s.
  - destruct s as [| y s]; [done |].
    rewrite sapp_cons in E. cbn [toLowerCase] in E. injection E as Ex Es.
    destruct (IH s Es) as (s1 & s2 & -> & E1 & E2).
    exists (String y s1), s2. split; [done |]. split; [| done].
    cbn [toLowerCase]. by rewrite Ex, E1.
Qed.

(** *** Letters *)

Lemma canon_lower_unit a : canon (lower_unit a) = canon a.
Proof. destruct a as [[] [] [] [] [] [] [] []]; reflexivity. Qed.

Lemma lower_unit_canon a : lower_unit (canon a) = lower_unit a.
Proof. destruct a as [[] [] [] [] [] [] [] []]; reflexivity. Qed.

Lemma lower_unit_twice a : lower_unit (lower_unit a) = lower_unit a.
Proof. destruct a as [[] [] [] [] [] [] [] []]; reflexivity. Qed.

(** Two code units are equal under the [i] flag exactly when their lower
    cases are equal. *)
Lemma unit_eq_ignore_case c a :
  unit_eq true c a = true ↔ lower_unit c = lower_unit a.
Proof.
  unfold unit_eq. rewrite bool_decide_eq_true. split; intros E.
  - by rewrite <- (lower_unit_canon c), E, lower_unit_canon.
  - by rewrite <- (canon_lower_unit c), E, canon_lower_unit.
Qed.

Lemma unit_eq_exact c a : unit_eq false c a = true ↔ c = a.
Proof. unfold unit_eq. apply bool_decide_eq_true. Qed.

Lemma toLowerCase_twice s : toLowerCase (toLowerCase s) = toLowerCase s.
Proof.
  induction s as [| a s IH]; [done |].
  cbn [toLowerCase]. by rewrite lower_unit_twice, IH.
Qed.

(** *** The matcher against the reading of a pattern as a set of words *)

Lemma rmatch_lang i r : ∀ s x,
  In x (rmatch i r s) ↔ ∃ v, lang i r v ∧ s = v +:+ x.
Proof.
  induction r as [| c | cs | r1 IH1 r2 IH2 | r1 IH1 r2 IH2 | r1 IH1]; intros s x;
    cbn [rmatch lang].
  - split.
    + intros [<- | []]. by exists "".
    + intros (v & -> & ->). by left.
  - destruct s as [| a s].
    + split; [done |]. by intros (v & (a & -> & _) & E).
    + destruct (unit_eq i c a) eqn:Eca.
      * split.
        -- intros [<- | []]. exists (String a ""). split; [| done]. by exists a.
        -- intros (v & (b & -> & _) & E). injection E as -> ->. by left.
      * split; [done |].
        intros (v & (b & -> & Hb) & E). injection E as -> ->. congruence.
  - destruct s as [| a s].
    + split; [done |]. by intros (v & (a & -> & _) & E).
    + destruct (existsb _ cs) eqn:Eca.
      * split.
        -- intros [<- | []]. exists (String a ""). split; [| done]. by exists a.
        -- intros (v & (b & -> & _) & E). injection E as -> ->. by left.
      * split; [done |].
        intros (v & (b & -> & Hb) & E). injection E as -> ->. congruence.
  - rewrite in_flat_map. split.
    + intros (y & Hy & Hx). apply IH1 in Hy as (v1 & Hv1 & ->).
      apply IH2 in Hx as (v2 & Hv2 & ->).
      exists (v1 +:+ v2). split; [by exists v1, v2 | by rewrite sapp_assoc].
    + intros (v & (v1 & v2 & -> & Hv1 & Hv2) & ->).
      exists (v2 +:+ x). split.
      * apply IH1. exists v1. split; [done | by rewrite sapp_assoc].
      * apply IH2. by exists v2.
  - rewrite in_app_iff, IH1, IH2. split.
    + intros [(v & Hv & ->) | (v & Hv & ->)]; exists v; split; auto.
    + intros (v & [Hv | Hv] & ->); [left | right]; by exists v.
  - rewrite in_app_iff, IH1. split.
    + intros [(v & Hv & ->) | [<- | []]].
      * exists v. split; [by left | done].
      * exists "". split; [by right | done].
    + intros (v & [Hv | ->] & ->).
      * left. by exists v.
      * right. by left.
Qed.

Lemma matches_here_lang i r s :
  matches_here i r s = true ↔ ∃ v x, lang i r v ∧ s = v +:+ x.
Proof.
  unfold matches_here. split.
  - destruct (rmatch i r s) as [| x l] eqn:E; [done |]. intros _.
    assert (Hx : In x (rmatch i r s)) by (rewrite E; by left).
    apply rmatch_lang in Hx as (v & Hv & ->). by exists v, x.
  - intros (v & x & Hv & ->).
    assert (Hx : In x (rmatch i r (v +:+ x))) by (apply rmatch_lang; by exists v).
    by destruct (rmatch i r (v +:+ x)).
Qed.

(** [test] finds a word of the pattern somewhere in the text. *)
Lemma test_lang i r s :
  test i r s = true ↔ ∃ p v q, s = p +:+ v +:+ q ∧ lang i r v.
Proof.
  induction s as [| a s IH]; cbn [test]; rewrite orb_true_iff, matches_here_lang.
  - split.
    + intros [(v & x & Hv & E) | ?]; [| done]. by exists "", v, x.
    + intros (p & v & q & E & Hv). left.
      destruct p; [| done]. by exists v, q.
  - rewrite IH. split.
    + intros [(v & x & Hv & E) | (p & v & q & -> & Hv)].
      * by exists "", v, x.
      * by exists (String a p), v, q.
    + intros (p & v & q & E & Hv). destruct p as [| b p].
      * left. by exists v, q.
      * right. rewrite sapp_cons in E. injection E as -> ->. by exists p, v, q.
Qed.

(** *** Literals and lists of words *)

Lemma lang_lit_exact w : ∀ v, lang false (lit w) v ↔ v = w.
Proof.
  induction w as [| c w IH]; intros v; cbn [lit lang]; [done |].
  split.
  - intros (v1 & v2 & -> & (a & -> & Ha) & Hv2).
    apply unit_eq_exact in Ha as <-. apply IH in Hv2 as ->. done.
  - intros ->. exists (String c ""), w. split; [done |]. split; [| by apply IH].
    exists c. split; [done | by apply unit_eq_exact].
Qed.

Lemma lang_lit_ignore_case w : ∀ v,
  lang true (lit w) v ↔ toLowerCase v = toLowerCase w.
Proof.
  induction w as [| c w IH]; intros v; cbn [lit lang].
  - split; [by intros -> | by destruct v].
  - split.
    + intros (v1 & v2 & -> & (a & -> & Ha) & Hv2).
      apply unit_eq_ignore_case in Ha. apply IH in Hv2.
      change (String a "" +:+ v2) with (String a v2).
      cbn [toLowerCase]. by rewrite Ha, Hv2.
    + destruct v as [| a v]; [done |]. cbn [toLowerCase]. intros [= Ha Hv].
      exists (String a ""), v. split; [done |]. split; [| by apply IH].
      exists a. split; [done | by apply unit_eq_ignore_case].
Qed.

Lemma lang_alts i r rs : ∀ v,
  lang i (alts (r :: rs)) v ↔ ∃ r', In r' (r :: rs) ∧ lang i r' v.
Proof.
  revert r. induction rs as [| r2 rs IH]; intros r v.
  - cbn. split; [intros Hv; exists r; auto | by intros (r' & [<- | []] & Hv)].
  - change (alts (r :: r2 :: rs)) with (Alt r (alts (r2 :: rs))).
    cbn [lang]. rewrite IH. split.
    + intros [Hv | (r' & Hin & Hv)].
      * exists r. split; [by left | done].
      * exists r'. split; [by right | done].
    + intros (r' & [<- | Hin] & Hv); [by left |]. right. by exists r'.
Qed.

Lemma test_words w ws t :
  test false (words (w :: ws)) t = true ↔ includes_any (w :: ws) t.
Proof.
  rewrite test_lang. unfold includes_any, includes, words. cbn [map].
  split.
  - intros (p & v & q & -> & Hv). apply lang_alts in Hv as (r' & Hin & Hv).
    change (lit w :: map lit ws) with (map lit (w :: ws)) in Hin.
    apply in_map_iff in Hin as (w' & <- & Hin). apply lang_lit_exact in Hv as ->.
    exists w'. split; [by apply list_elem_of_In |]. by exists p, q.
  - intros (w' & Hin & p & q & ->). exists p, w', q. split; [done |].
    apply lang_alts. exists (lit w'). split; [| by apply lang_lit_exact].
    change (lit w :: map lit ws) with (map lit (w :: ws)).
    apply in_map. by apply list_elem_of_In.
Qed.

End RegexFacts.

(** ** What the patterns of the chat component detect *)

Module PatternLaws.
Import Text Regex Fallback Chat RegexSpec FallbackSpec CaseSpec.
Import FallbackFacts RegexFacts.

(** *** The crisis pattern *)

Lemma lower_single (v : string) (c : ascii) :
  toLowerCase v = String c "" → ∃ a, v = String a "" ∧ lower_unit a = c.
Proof.
  destruct v as [| a [| b v]]; cbn; try done. intros [= <-]. by exists a.
Qed.

Lemma lang_dash_or_space v :
  lang true (Cls ["-"%char; " "%char]) v ↔ toLowerCase v = "-" ∨ toLowerCase v = " ".
Proof.
  cbn [lang existsb]. split.
  - intros (a & -> & Ha). rewrite orb_false_r, orb_true_iff in Ha.
    destruct Ha as [Ha | Ha]; apply unit_eq_ignore_case in Ha; cbn [toLowerCase];
      rewrite <- Ha; [by left | by right].
  - intros [E | E]; apply lower_single in E as (a & -> & Ha); exists a;
      (split; [done |]); rewrite orb_false_r, orb_true_iff; [left | right];
      by apply unit_eq_ignore_case.
Qed.

Lemma lang_self_harm v :
  lang true (Cat (lit "self") (Cat (Opt (Cls ["-"%char; " "%char])) (lit "harm"))) v
  ↔ toLowerCase v = "selfharm" ∨ toLowerCase v = "self-harm"
    ∨ toLowerCase v = "self harm".
Proof.
  change (lang true (Cat (lit "self") (Cat (Opt (Cls ["-"%char; " "%char])) (lit "harm"))) v)
    with (∃ v1 v2, v = v1 +:+ v2 ∧ lang true (lit "self") v1
            ∧ ∃ v3 v4, v2 = v3 +:+ v4
                ∧ (lang true (Cls ["-"%char; " "%char]) v3 ∨ v3 = "")
                ∧ lang true (lit "harm") v4).
  split.
  - intros (v1 & v2 & -> & H1 & v3 & v4 & -> & H3 & H4).
    apply lang_lit_ignore_case in H1, H4.
    rewrite !toLowerCase_app, H1, H4.
    destruct H3 as [[E | E]%lang_dash_or_space | ->]; [rewrite E; auto .. | auto].
  - intros E.
    assert (Hsplit : ∃ mid, toLowerCase v = "self" +:+ mid +:+ "harm"
                            ∧ (mid = "" ∨ mid = "-" ∨ mid = " ")).
    { destruct E as [E | [E | E]]; rewrite E;
        [exists "" | exists "-" | exists " "]; split; auto. }
    destruct Hsplit as (mid & Ev & Hmid).
    apply toLowerCase_split in Ev as (v1 & v2 & -> & E1 & E2).
    apply toLowerCase_split in E2 as (v3 & v4 & -> & E3 & E4).
    exists v1, (v3 +:+ v4). split; [done |].
    split; [by apply lang_lit_ignore_case |].
    exists v3, v4. split; [done |]. split; [| by apply lang_lit_ignore_case].
    destruct Hmid as [-> | [-> | ->]].
    + right. by destruct v3.
    + left. apply lang_dash_or_space. by left.
    + left. apply lang_dash_or_space. by right.
Qed.

Lemma lang_crisis v : lang true crisisRegex v ↔ toLowerCase v ∈ crisis_phrases.
Proof.
  unfold crisisRegex, crisis_phrases. rewrite lang_alts. split.
  - intros (r & Hin & Hv). cbn [In] in Hin.
    destruct Hin as [<- | [<- | [<- | [<- | [<- | [<- | []]]]]]];
      try (apply lang_lit_ignore_case in Hv; rewrite Hv; by_evaluation).
    apply lang_self_harm in Hv as [-> | [-> | ->]]; by_evaluation.
  - intros Hin. repeat (apply elem_of_cons in Hin as [E | Hin]);
      [ exists (lit "suicide") | exists (lit "kill myself") | exists (lit "end it")
      | exists (lit "can't go on")
      | eexists; split; [do 4 right; left; reflexivity | apply lang_self_harm; auto]
      | eexists; split; [do 4 right; left; reflexivity | apply lang_self_harm; auto]
      | eexists; split; [do 4 right; left; reflexivity | apply lang_self_harm; auto]
      | exists (lit "hurt myself") | by apply elem_of_nil in Hin ];
      (split; [cbn; tauto | by apply lang_lit_ignore_case]).
Qed.

(** *** Letter case *)

Lemma capital_lower_unit a :
  plain (lower_unit a) = true → capital (lower_unit a) = capital a.
Proof. destruct a as [[] [] [] [] [] [] [] []]; vm_compute; done. Qed.

Lemma lower_unit_capital a : lower_unit (capital a) = lower_unit a.
Proof. destruct a as [[] [] [] [] [] [] [] []]; reflexivity. Qed.

Lemma lower_unit_plain c : plain c = true → lower_unit (capital c) = c.
Proof. destruct c as [[] [] [] [] [] [] [] []]; vm_compute; done. Qed.

(** A code unit lower-cases to a plain unit exactly when the two have the
    same capital. *)
Lemma lower_unit_spells c a :
  plain c = true → lower_unit a = c ↔ capital a = capital c.
Proof.
  intros Hc. split.
  - intros <-. symmetry. by apply capital_lower_unit.
  - intros E. by rewrite <- lower_unit_capital, E, lower_unit_plain.
Qed.

Lemma toLowerCase_spells w : plain_word w = true →
  ∀ v, toLowerCase v = w ↔ spells w v.
Proof.
  unfold spells. induction w as [| c w IH]; intros Hw v.
  - by destruct v.
  - cbn [plain_word] in Hw. apply andb_true_iff in Hw as [Hc Hw].
    destruct v as [| a v]; [done |]. cbn [toLowerCase capitals]. split.
    + intros [= Ha Hv]. f_equal; [by apply lower_unit_spells | by apply IH].
    + intros [= Ha Hv]. f_equal; [by apply lower_unit_spells | by apply IH].
Qed.

Lemma capitals_app (a b : string) : capitals (a +:+ b) = capitals a +:+ capitals b.
Proof.
  induction a as [| x a IH]; [done |].
  rewrite sapp_cons. cbn [capitals]. by rewrite IH.
Qed.

Lemma capitals_split (s a b : string) :
  capitals s = a +:+ b →
  ∃ s1 s2, s = s1 +:+ s2 ∧ capitals s1 = a ∧ capitals s2 = b.
Proof.
  revert s. induction a as [| x a IH]; intros s E.
  - by exists "", s.
  - destruct s as [| y s]; [done |].
    rewrite sapp_cons in E. cbn [capitals] in E. injection E as Ex Es.
    destruct (IH s Es) as (s1 & s2 & -> & E1 & E2).
    exists (String y s1), s2. split; [done |]. split; [| done].
    cbn [capitals]. by rewrite Ex, E1.
Qed.

Lemma crisis_phrases_plain : Forall (λ w, plain_word w = true) crisis_phrases.
Proof. by_evaluation. Qed.

(** The words of the crisis pattern: the eight phrases in any mix of
    cases. *)
Lemma lang_crisis_spells v :
  lang true crisisRegex v ↔ ∃ w, w ∈ crisis_phrases ∧ spells w v.
Proof.
  pose proof crisis_phrases_plain as Hplain. rewrite Forall_forall in Hplain.
  rewrite lang_crisis. split.
  - intros Hin. exists (toLowerCase v). split; [done |].
    by apply toLowerCase_spells; [apply Hplain |].
  - intros (w & Hw & Hv). apply toLowerCase_spells in Hv; [| by apply Hplain].
    by rewrite Hv.
Qed.

Lemma crisis_says t : crisis t = true ↔ says_any crisis_phrases t.
Proof.
  unfold crisis. rewrite test_lang. unfold says_any, says. split.
  - intros (p & v & q & -> & Hv). apply lang_crisis_spells in Hv as (w & Hw & Hv).
    exists w. split; [done |]. by exists p, v, q.
  - intros (w & Hw & p & v & q & -> & Hv). exists p, v, q. split; [done |].
    apply lang_crisis_spells. by exists w.
Qed.

Lemma says_capitals w t other : capitals other = capitals t → says w t → says w other.
Proof.
  intros E (p & v & q & -> & Hv). rewrite !capitals_app in E.
  apply capitals_split in E as (p' & rest & -> & _ & E).
  apply capitals_split in E as (v' & q' & -> & Ev & _).
  exists p', v', q'. split; [done |]. unfold spells in *. by rewrite Ev.
Qed.

(** X14. The crisis detector fires exactly on the messages that have one of
    the eight phrases somewhere in them, each letter in either case:
    suicide, kill myself, end it, can't go on, selfharm, self-harm,
    self harm, hurt myself. So it does not depend on the case of the
    letters A to Z, it finds a phrase wherever it stands in the message, and
    it fires on nothing else. *)
Theorem crisis_exactly_on_phrases (userText : string) :
  (crisis userText = true ↔ says_any crisis_phrases userText)
  ∧ (∀ other, capitals other = capitals userText → crisis other = crisis userText)
  ∧ (∀ before after,
       crisis userText = true → crisis (before +:+ userText +:+ after) = true).
Proof.
  split; [apply crisis_says |]. split.
  - intros other E.
    destruct (crisis userText) eqn:Hu.
    + apply crisis_says. apply crisis_says in Hu as (w & Hw & Hsays).
      exists w. split; [done |]. by apply (says_capitals w userText).
    + destruct (crisis other) eqn:Ho; [| done].
      apply crisis_says in Ho as (w & Hw & Hsays).
      assert (Hu' : crisis userText = true).
      { apply crisis_says. exists w. split; [done |].
        by apply (says_capitals w other). }
      congruence.
  - intros before after Hu. apply crisis_says in Hu as (w & Hw & p & v & q & -> & Hv).
    apply crisis_says. exists w. split; [done |].
    exists (before +:+ p), v, (q +:+ after). split; [| done].
    by rewrite !sapp_assoc.
Qed.

Lemma crisis_exactly_on_phrases_witness :
  crisis "Some days I want to END IT all" = true
  ∧ crisis "SOME DAYS I WANT TO END IT ALL" = true
  ∧ crisis ">> Some days I want to END IT all <<" = true.
Proof.
  destruct (crisis_exactly_on_phrases "Some days I want to END IT all")
    as (Hiff & Hcase & Hctx).
  assert (H : crisis "Some days I want to END IT all" = true).
  { apply Hiff. exists "end it". split; [by_evaluation |].
    by exists "Some days I want to ", "END IT", " all". }
  split; [exact H |]. split.
  - rewrite (Hcase "SOME DAYS I WANT TO END IT ALL"); [exact H | reflexivity].
  - exact (Hctx ">> " " <<" H).
Defined.

(** *** The keyword rules of the local classification *)

Lemma re_excellent_words t :
  test false re_excellent t = true ↔ includes_any words_excellent t.
Proof. apply test_words. Qed.

Lemma re_good_words t : test false re_good t = true ↔ includes_any words_good t.
Proof. apply test_words. Qed.

Lemma re_poor_words t : test false re_poor t = true ↔ includes_any words_poor t.
Proof. apply test_words. Qed.

Lemma re_awful_words t : test false re_awful t = true ↔ includes_any words_awful t.
Proof. apply test_words. Qed.

Lemma re_sleep_words t : test false re_sleep t = true ↔ includes_any words_sleep t.
Proof. apply test_words. Qed.

Lemma not_test_words (b : bool) (P : Prop) : (b = true ↔ P) → b = false ↔ ¬ P.
Proof.
  destruct b; intros [H1 H2]; split.
  - done.
  - intros HP. exfalso. by apply HP, H1.
  - intros _ HP. by apply H2 in HP.
  - done.
Qed.

(** X15. The mood of the local classification is decided by the first word
    list, in the order excellent, good, poor, awful, one of whose words the
    lower-cased text contains; a word of an earlier list wins over words of
    later lists, and a text with none of the words is okay. *)
Theorem fallback_mood_priority (text : string) :
  let t := toLowerCase text in
  let m := mood (fallbackAnalyze text) in
  (includes_any words_excellent t → m = excellent)
  ∧ (¬ includes_any words_excellent t → includes_any words_good t → m = good)
  ∧ (¬ includes_any words_excellent t → ¬ includes_any words_good t →
     includes_any words_poor t → m = poor)
  ∧ (¬ includes_any words_excellent t → ¬ includes_any words_good t →
     ¬ includes_any words_poor t → includes_any words_awful t → m = awful)
  ∧ (¬ includes_any words_excellent t → ¬ includes_any words_good t →
     ¬ includes_any words_poor t → ¬ includes_any words_awful t → m = okay).
Proof.
  cbv zeta. unfold fallbackAnalyze; cbn [mood]. unfold classify.
  repeat split.
  - intros H%re_excellent_words. by rewrite H.
  - intros H1%(not_test_words _ _ (re_excellent_words _)) H2%re_good_words.
    by rewrite H1, H2.
  - intros H1%(not_test_words _ _ (re_excellent_words _))
           H2%(not_test_words _ _ (re_good_words _)) H3%re_poor_words.
    by rewrite H1, H2, H3.
  - intros H1%(not_test_words _ _ (re_excellent_words _))
           H2%(not_test_words _ _ (re_good_words _))
           H3%(not_test_words _ _ (re_poor_words _)) H4%re_awful_words.
    by rewrite H1, H2, H3, H4.
  - intros H1%(not_test_words _ _ (re_excellent_words _))
           H2%(not_test_words _ _ (re_good_words _))
           H3%(not_test_words _ _ (re_poor_words _))
           H4%(not_test_words _ _ (re_awful_words _)).
    by rewrite H1, H2, H3, H4.
Qed.

Lemma fallback_mood_priority_witness :
  mood (fallbackAnalyze "Sad morning, but a GREAT evening") = excellent
  ∧ mood (fallbackAnalyze "Just terrible") = awful.
Proof.
  split.
  - apply (fallback_mood_priority "Sad morning, but a GREAT evening").
    exists "great". split; [by_evaluation |]. by exists "sad morning, but a ", " evening".
  - destruct (fallback_mood_priority "Just terrible") as (_ & _ & _ & Hawful & _).
    apply Hawful.
    + by apply (not_test_words _ _ (re_excellent_words _)).
    + by apply (not_test_words _ _ (re_good_words _)).
    + by apply (not_test_words _ _ (re_poor_words _)).
    + exists "terrible". split; [by_evaluation |]. by exists "just ", "".
Defined.

(** X16. Whatever the text, the titles of the local classification are
    Hydrate, walk, journal and breathing plus one more: the wind-down routine
    when the lower-cased text contains tired, sleep or insomnia, and Read 10
    pages otherwise. The other keyword rules only change the order. *)
Theorem fallback_titles_fixed (text : string) :
  let titles := map title (todos (fallbackAnalyze text)) in
  "Hydrate: 8 glasses of water" ∈ titles
  ∧ "10-minute walk" ∈ titles
  ∧ "Journal for 5 minutes" ∈ titles
  ∧ "5-minute breathing" ∈ titles
  ∧ (includes_any words_sleep (toLowerCase text) →
     "Wind-down routine before bed" ∈ titles ∧ "Read 10 pages" ∉ titles)
  ∧ (¬ includes_any words_sleep (toLowerCase text) →
     "Read 10 pages" ∈ titles ∧ "Wind-down routine before bed" ∉ titles).
Proof.
  cbv zeta. unfold fallbackAnalyze; cbn [todos]. rewrite rule_todos_rules_of.
  pose proof (re_sleep_words (toLowerCase text)) as Hsleep.
  pose proof (not_test_words _ _ Hsleep) as Hawake.
  revert Hsleep Hawake.
  generalize (test false re_breathing (toLowerCase text))
             (test false re_sleep (toLowerCase text))
             (test false re_journal (toLowerCase text))
             (test false re_walk (toLowerCase text)).
  intros b1 b2 b3 b4 Hsleep Hawake.
  assert (Hcases :
    let titles := map title (take 5 (with_defaults (rules_of b1 b2 b3 b4))) in
    "Hydrate: 8 glasses of water" ∈ titles
    ∧ "10-minute walk" ∈ titles
    ∧ "Journal for 5 minutes" ∈ titles
    ∧ "5-minute breathing" ∈ titles
    ∧ (b2 = true → "Wind-down routine before bed" ∈ titles ∧ "Read 10 pages" ∉ titles)
    ∧ (b2 = false → "Read 10 pages" ∈ titles ∧ "Wind-down routine before bed" ∉ titles)).
  { destruct b1, b2, b3, b4; cbv zeta;
      repeat split; try discriminate; intros; by_evaluation. }
  cbv zeta in Hcases. destruct Hcases as (H1 & H2 & H3 & H4 & H5 & H6).
  split; [exact H1 |]. split; [exact H2 |]. split; [exact H3 |].
  split; [exact H4 |]. split.
  - intros Hin. by apply H5, Hsleep.
  - intros Hout. by apply H6, Hawake.
Qed.

Lemma fallback_titles_fixed_witness :
  "Wind-down routine before bed" ∈ map title (todos (fallbackAnalyze "No SLEEP again"))
  ∧ "Read 10 pages" ∈ map title (todos (fallbackAnalyze "All well")).
Proof.
  split.
  - apply (fallback_titles_fixed "No SLEEP again").
    exists "sleep". split; [by_evaluation |]. by exists "no ", " again".
  - apply (fallback_titles_fixed "All well").
    by apply (not_test_words _ _ (re_sleep_words _)).
Defined.

End PatternLaws.

(** ** The views *)

Module ViewLaws.
Import Text Store TextSpec StoreSpec RunSpec ViewSpec.
Import TextFacts StoreFacts StoreLaws.

(** *** The habit tracker *)

(** X17. [handleAddHabit] with a blank name changes neither the form nor the
    store. With any other name it clears and closes the form and asks for a
    habit named by the trimmed input, which is not empty and has no white
    space at either end: when no habit has that name, letter case aside, the
    habit is appended with category health, not completed, streak 0; when one
    has, the store is unchanged, the form being cleared all the same. The
    number of completed habits shown never exceeds the total. *)
Theorem handleAddHabit_spec (s : State) (id : string) (l : HabitTracker.Local) :
  let name := trim (HabitTracker.newHabitName l) in
  let l' := fst (HabitTracker.handleAddHabit s id l) in
  let s' := snd (HabitTracker.handleAddHabit s id l) s in
  (name = "" → l' = l ∧ s' = s)
  ∧ (name ≠ "" →
     l' = HabitTracker.mkLocal "" false
     ∧ no_outer_space name
     ∧ (name_free name (habits s) →
        s' = setHabits (λ prev, prev ++ [HabitItem.mk id name false 0 health None]) s)
     ∧ (¬ name_free name (habits s) → s' = s))
  ∧ HabitTracker.completedCount (habits s) ≤ HabitTracker.totalHabits (habits s).
Proof.
  cbv zeta. unfold HabitTracker.handleAddHabit. split; [| split].
  - intros E. rewrite E. done.
  - intros Hname. apply truthy_iff_nonempty in Hname. rewrite Hname. cbn [fst snd].
    split; [done |]. split; [apply trim_no_outer_space |]. split.
    + intros Hfree. unfold addHabit.
      apply name_free_existsb in Hfree. by rewrite Hfree.
    + intros Htaken. by apply (addHabit_duplicate id _ (Some health)).
  - apply length_filter.
Qed.

Lemma handleAddHabit_spec_witness :
  snd (HabitTracker.handleAddHabit two_habits "h9" (HabitTracker.mkLocal "  Yoga " true))
      two_habits
  = setHabits (λ prev, prev ++ [HabitItem.mk "h9" "Yoga" false 0 health None]) two_habits
  ∧ snd (HabitTracker.handleAddHabit two_habits "h9"
           (HabitTracker.mkLocal " STRETCH " true)) two_habits
    = two_habits
  ∧ HabitTracker.handleAddHabit two_habits "h9" (HabitTracker.mkLocal "   " true)
    = (HabitTracker.mkLocal "   " true, nothing).
Proof.
  split; [| split].
  - destruct (handleAddHabit_spec two_habits "h9" (HabitTracker.mkLocal "  Yoga " true))
      as (_ & Hadd & _).
    destruct (Hadd ltac:(done)) as (_ & _ & Hfree & _).
    apply Hfree. by_evaluation.
  - destruct (handleAddHabit_spec two_habits "h9" (HabitTracker.mkLocal " STRETCH " true))
      as (_ & Hadd & _).
    destruct (Hadd ltac:(done)) as (_ & _ & _ & Htaken).
    apply Htaken. intros Hfree. apply name_free_existsb in Hfree. by vm_compute in Hfree.
  - reflexivity.
Defined.

(** *** The journal *)

Lemma slice0_length n s : String.length (Journal.slice0 n s) ≤ n.
Proof.
  revert s. induction n as [| n IH]; intros [| c s]; cbn; try lia.
  specialize (IH s). lia.
Qed.

(** The title that [saveEntry] gives an entry whose content is not blank. *)
Lemma saved_title currentTitle content :
  content ≠ "" → no_outer_space content →
  let title :=
    trim (Journal.or_else (Journal.or_else (trim currentTitle) (Journal.slice0 40 content))
            "Untitled") in
  title ≠ ""
  ∧ no_outer_space title
  ∧ (trim currentTitle ≠ "" → title = trim currentTitle)
  ∧ (trim currentTitle = "" →
     title = trim (Journal.slice0 40 content) ∧ String.length title ≤ 40).
Proof.
  intros Hcontent [Hfirst _]. cbv zeta.
  split; [| split; [apply trim_no_outer_space |]].
  - unfold Journal.or_else.
    destruct (truthy (trim currentTitle)) eqn:Ht; cbv beta iota.
    + rewrite Ht, trim_twice. by apply truthy_iff_nonempty.
    + destruct content as [| c rest]; [done |].
      specialize (Hfirst c eq_refl).
      change (Journal.slice0 40 (String c rest))
        with (String c (Journal.slice0 39 rest)).
      unfold truthy; cbv beta iota.
      destruct (trim_keeps_first c (Journal.slice0 39 rest) Hfirst) as (r & ->). done.
  - unfold Journal.or_else. split.
    + intros Ht%truthy_iff_nonempty. rewrite Ht; cbv beta iota. by rewrite Ht, trim_twice.
    + intros Ht. rewrite Ht. cbn [truthy].
      destruct content as [| c rest]; [done |].
      change (Journal.slice0 40 (String c rest))
        with (String c (Journal.slice0 39 rest)).
      unfold truthy; cbv beta iota.
      split; [done |].
      etransitivity; [apply trim_length |].
      change (String c (Journal.slice0 39 rest))
        with (Journal.slice0 40 (String c rest)).
      apply slice0_length.
Qed.

(** X18. [saveEntry] with a blank entry text changes nothing. Otherwise it
    puts one entry in front of the journal and clears the form; the entry has
    the trimmed text as content, the date of the day, no mood, and a title
    that is never empty and has no white space at either end: the trimmed
    title typed, or with a blank title the trimmed first 40 units of the
    content (the "Untitled" default is never used). *)
Theorem saveEntry_spec (today id : string) (l : Journal.Local) (s : State) :
  let content := trim (Journal.currentEntry l) in
  (content = "" → Journal.saveEntry today id l = (l, nothing))
  ∧ (content ≠ "" →
     ∃ title,
       Journal.saveEntry today id l =
         (Journal.mkLocal "" "" "" false (Journal.editingEntry l) (Journal.editTitle l)
            (Journal.editContent l),
          addJournalEntry id (JournalEntry.mkInput title content today None))
       ∧ journalEntries (snd (Journal.saveEntry today id l) s) =
           JournalEntry.mk id title content today None :: journalEntries s
       ∧ title ≠ "" ∧ no_outer_space title ∧ no_outer_space content
       ∧ (trim (Journal.currentTitle l) ≠ "" → title = trim (Journal.currentTitle l))
       ∧ (trim (Journal.currentTitle l) = "" →
          title = trim (Journal.slice0 40 content) ∧ String.length title ≤ 40)).
Proof.
  cbv zeta. unfold Journal.saveEntry. split.
  - intros ->. done.
  - intros Hcontent.
    destruct (saved_title (Journal.currentTitle l) (trim (Journal.currentEntry l))
                Hcontent (trim_no_outer_space _)) as (Hne & Hclean & Htyped & Hblank).
    apply truthy_iff_nonempty in Hcontent. rewrite Hcontent. cbn [negb].
    eexists. split; [reflexivity |]. split; [reflexivity |].
    split; [exact Hne |]. split; [exact Hclean |].
    split; [apply trim_no_outer_space |]. split; [exact Htyped | exact Hblank].
Qed.

Lemma saveEntry_spec_witness :
  ∃ title,
    journalEntries (snd (Journal.saveEntry "2026-01-02" "j7" draft) two_habits)
    = [JournalEntry.mk "j7" title
         "Walked by the river, then read for an hour before going to bed."
         "2026-01-02" None]
    ∧ title = "Walked by the river, then read for an ho"
    ∧ Journal.saveEntry "2026-01-02" "j7" blank_journal = (blank_journal, nothing).
Proof.
  destruct (saveEntry_spec "2026-01-02" "j7" draft two_habits) as [_ Hsave].
  destruct (Hsave ltac:(done)) as (title & _ & Hentries & _ & _ & _ & _ & Hblank).
  destruct (Hblank eq_refl) as [Htitle _].
  destruct (saveEntry_spec "2026-01-02" "j7" blank_journal two_habits) as [Hnothing _].
  exists title. split; [exact Hentries |]. split; [by rewrite Htitle |].
  by apply Hnothing.
Defined.

Lemma unique_id (l : list JournalEntry.t) (e e2 : JournalEntry.t) :
  NoDup (map JournalEntry.id l) → e ∈ l → e2 ∈ l →
  JournalEntry.id e2 = JournalEntry.id e → e2 = e.
Proof.
  induction l as [| x l IH]; intros Hnd He He2 Hid; [by apply elem_of_nil in He |].
  cbn in Hnd. apply NoDup_cons in Hnd as [Hx Hnd].
  apply elem_of_cons in He as [-> | He]; apply elem_of_cons in He2 as [-> | He2];
    try done.
  - exfalso. apply Hx. rewrite <- Hid. by apply (list_elem_of_fmap_2 JournalEntry.id).
  - exfalso. apply Hx. rewrite Hid. by apply (list_elem_of_fmap_2 JournalEntry.id).
  - by apply IH.
Qed.

(** X19. [saveEdit] with a blank title or a blank content changes nothing
    and stays in edit mode. Otherwise it leaves edit mode and gives every
    entry with the edited id the trimmed title and content, keeping its id,
    date and mood, and leaves the other entries, their order and the other
    cells untouched. Opening an entry whose title and content are not blank
    and have no outer white space, in a journal without repeated ids, and
    saving it without a change leaves the store as it was. *)
Theorem saveEdit_spec (l : Journal.Local) (s : State) :
  (trim (Journal.editTitle l) = "" ∨ trim (Journal.editContent l) = "" →
   Journal.saveEdit l = (l, nothing))
  ∧ (∀ id, trim (Journal.editTitle l) ≠ "" → trim (Journal.editContent l) ≠ "" →
       Journal.editingEntry l = Some id →
       let s' := snd (Journal.saveEdit l) s in
       fst (Journal.saveEdit l) = Journal.cancelEdit l
       ∧ Forall2 (edited id (trim (Journal.editTitle l)) (trim (Journal.editContent l)))
           (journalEntries s) (journalEntries s')
       ∧ habits s' = habits s ∧ Store.todos s' = Store.todos s
       ∧ moodHistory s' = moodHistory s ∧ chatMessages s' = chatMessages s
       ∧ sleepEntries s' = sleepEntries s)
  ∧ (∀ e, e ∈ journalEntries s → NoDup (map JournalEntry.id (journalEntries s)) →
       JournalEntry.title e ≠ "" → JournalEntry.content e ≠ "" →
       no_outer_space (JournalEntry.title e) → no_outer_space (JournalEntry.content e) →
       snd (Journal.saveEdit (Journal.startEdit e l)) s = s).
Proof.
  split; [| split].
  - unfold Journal.saveEdit. intros [E | E]; rewrite E; cbn [truthy negb orb]; [done |].
    by rewrite orb_true_r.
  - intros id Ht%truthy_iff_nonempty Hc%truthy_iff_nonempty Hid. cbv zeta.
    unfold Journal.saveEdit. rewrite Ht, Hc, Hid. cbn [negb orb fst snd].
    split; [done |]. split; [| by repeat split].
    rewrite updateJournalEntry_cells.
    induction (journalEntries s) as [| e es IH]; cbn [map]; constructor; [| exact IH].
    unfold patch_one, edited. case_bool_decide; repeat split; done.
  - intros e He Hnd Ht Hc Htclean Hcclean.
    unfold Journal.saveEdit, Journal.startEdit;
      cbn [Journal.editTitle Journal.editContent Journal.editingEntry].
    rewrite !trim_fixed by done.
    apply truthy_iff_nonempty in Ht, Hc. rewrite Ht, Hc. cbn [negb orb snd].
    unfold updateJournalEntry, setJournalEntries.
    replace (map _ (journalEntries s)) with (journalEntries s); [apply state_eta |].
    symmetry. rewrite <- (map_id (journalEntries s)) at 2.
    apply map_ext_in. intros e2 He2%list_elem_of_In.
    case_bool_decide as Hsame; [| done].
    rewrite (unique_id _ e e2 Hnd He He2 Hsame). by destruct e.
Qed.

Lemma saveEdit_spec_witness :
  let s := step (AddJournalEntry "j1" sample_journal) two_habits in
  let l := Journal.mkLocal "" "" "" false (Some "j1") " Night " " Read a book. " in
  (∃ e', journalEntries (snd (Journal.saveEdit l) s) = [e']
         ∧ JournalEntry.title e' = "Night"
         ∧ JournalEntry.date e' = "2026-01-02")
  ∧ snd (Journal.saveEdit
           (Journal.startEdit (JournalEntry.with_id "j1" sample_journal) blank_journal)) s
    = s
  ∧ Journal.saveEdit blank_journal = (blank_journal, nothing).
Proof.
  cbv zeta.
  destruct (saveEdit_spec
              (Journal.mkLocal "" "" "" false (Some "j1") " Night " " Read a book. ")
              (step (AddJournalEntry "j1" sample_journal) two_habits))
    as (_ & Hsave & Hsame).
  split; [| split].
  - destruct (Hsave "j1" ltac:(done) ltac:(done) eq_refl) as (_ & Hall & _).
    apply Forall2_cons_inv_l in Hall as (e' & rest & Hed & Hrest & Ees).
    apply Forall2_nil_inv_l in Hrest as ->.
    destruct Hed as (_ & Hd & _ & Hyes & _). destruct (Hyes eq_refl) as [Ht _].
    exists e'. split; [exact Ees |]. split; [exact Ht | exact Hd].
  - destruct (saveEdit_spec blank_journal
                (step (AddJournalEntry "j1" sample_journal) two_habits))
      as (_ & _ & Hopen).
    apply Hopen; try done.
    + left.
    + by_evaluation.
    + split; intros c [= <-]; reflexivity.
    + split; intros c [= <-]; reflexivity.
  - by apply (saveEdit_spec blank_journal two_habits); left.
Defined.

(** *** The mood view *)

(** X20. In every state of a session the rows under "Recent Moods" are the
    five newest entries of the mood history: the history is never empty, so
    the placeholder rows are never shown. A submit without a selected mood
    changes nothing; with one it clears the form, and the first row shown
    afterwards is the submitted mood with the note typed (an empty note
    included), which is also today's mood. *)
Theorem shownMoods_spec (now : string) (l : MoodTracker.Local) (s : State) :
  (∀ today start, reachable today start s →
     MoodTracker.shownMoods (moodHistory s) = take 5 (moodHistory s))
  ∧ length (MoodTracker.shownMoods (moodHistory s)) ≤ 5
  ∧ (MoodTracker.selectedMood l = None → MoodTracker.handleSubmit now l = (l, nothing))
  ∧ (∀ m, MoodTracker.selectedMood l = Some m →
       let s' := snd (MoodTracker.handleSubmit now l) s in
       fst (MoodTracker.handleSubmit now l) = MoodTracker.mkLocal None ""
       ∧ head (MoodTracker.shownMoods (moodHistory s'))
         = Some (MoodEntry.mk now m (Some (MoodTracker.note l)))
       ∧ todayMood s' = Some m).
Proof.
  split; [| split; [| split]].
  - intros today start Hs. apply reachable_moodHistory in Hs as (news & ->).
    unfold MoodTracker.shownMoods. by destruct news.
  - unfold MoodTracker.shownMoods. rewrite length_take. lia.
  - unfold MoodTracker.handleSubmit. by intros ->.
  - intros m Hm. cbv zeta. unfold MoodTracker.handleSubmit. rewrite Hm. done.
Qed.

Lemma shownMoods_spec_witness :
  let s0 := initialState "2026-01-02" "2026-01-02T08:00:00.000Z" in
  MoodTracker.shownMoods (moodHistory s0) = take 5 (moodHistory s0)
  ∧ head (MoodTracker.shownMoods
            (moodHistory
               (snd (MoodTracker.handleSubmit "2026-01-02T09:00:00.000Z"
                       (MoodTracker.mkLocal (Some poor) "")) s0)))
    = Some (MoodEntry.mk "2026-01-02T09:00:00.000Z" poor (Some "")).
Proof.
  cbv zeta.
  destruct (shownMoods_spec "2026-01-02T09:00:00.000Z"
              (MoodTracker.mkLocal (Some poor) "")
              (initialState "2026-01-02" "2026-01-02T08:00:00.000Z"))
    as (Hshown & _ & _ & Hsubmit).
  split.
  - apply (Hshown "2026-01-02" "2026-01-02T08:00:00.000Z"), reach_init.
  - by destruct (Hsubmit poor eq_refl) as (_ & Hhead & _).
Defined.

End ViewLaws.

(** ** The calendar *)

Module CalendarLaws.
Import Text Store StoreSpec RunSpec CalendarSpec.
Import StoreFacts StoreLaws.

(** *** Completion dates *)

Lemma toggle_one_dated today id h : dated h → dated (toggle_one today id h).
Proof.
  intros [Hiff Hstreak]. unfold toggle_one. case_bool_decide; [| done].
  unfold dated; cbn. destruct (HabitItem.completed h); cbn.
  - split; [| done]. split; [done |]. by intros [? ?].
  - split; [| lia]. split; [by eexists | done].
Qed.

Lemma new_habits_undated r id name category :
  Forall (λ h, HabitItem.dateCompleted h = None) (new_habits r id name category).
Proof. unfold new_habits. destruct (existsb _ _); repeat constructor. Qed.

Lemma mirrored_undated r gen items :
  Forall (λ h, HabitItem.dateCompleted h = None) (mirrored r gen items).
Proof.
  unfold mirrored. apply Forall_concat, Forall_imap.
  intros; apply new_habits_undated.
Qed.

Lemma fresh_dated news :
  Forall (λ h, HabitItem.streak h = 0 ∧ HabitItem.completed h = false) news →
  Forall (λ h, HabitItem.dateCompleted h = None) news →
  Forall dated news.
Proof.
  intros Hn Hd. apply Forall_forall. intros h Hh.
  rewrite Forall_forall in Hn, Hd. destruct (Hn h Hh) as [_ Hc].
  unfold dated. rewrite Hc, (Hd h Hh). split; [| done].
  split; [done |]. by intros [? ?].
Qed.

Lemma step_dated o s : Forall dated (habits s) → Forall dated (habits (step o s)).
Proof.
  intros Hs. pose proof (habits_after o s s) as Hafter. unfold step.
  destruct o; cbn [handler] in *; try (by rewrite Hafter).
  - rewrite addHabit_appends. cbn [habits setHabits]. apply Forall_app. split; [done |].
    apply fresh_dated; [apply new_habits_streak | apply new_habits_undated].
  - rewrite Hafter. clear Hafter.
    induction Hs as [| h hs Hh _ IH]; cbn; constructor; [by apply toggle_one_dated | done].
  - rewrite Hafter. apply Forall_forall. intros h [_ Hh]%list_elem_of_filter.
    rewrite Forall_forall in Hs. by apply Hs.
  - rewrite addTodos_cells. cbn [habits]. apply Forall_app. split; [done |].
    apply fresh_dated; [apply mirrored_streak | apply mirrored_undated].
Qed.

Lemma reachable_dated today now s : reachable today now s → Forall dated (habits s).
Proof.
  induction 1 as [| s o _ IH]; [constructor | by apply step_dated].
Qed.

(** X21. In every state of a session a habit is completed exactly when it
    carries a completion date, and a completed habit has a streak of at
    least 1; every store operation keeps this from any state that has it. *)
Theorem completed_iff_dated :
  (∀ today now s, reachable today now s → Forall dated (habits s))
  ∧ (∀ o s, Forall dated (habits s) → Forall dated (habits (step o s))).
Proof. split; [apply reachable_dated | apply step_dated]. Qed.

Lemma completed_iff_dated_witness :
  Forall dated
    (habits (run [AddHabit "h1" "Walk" None; ToggleHabit "2026-01-02" "h1"]
               (initialState "2026-01-02" "2026-01-02T08:00:00.000Z"))).
Proof.
  destruct completed_iff_dated as [Hreach _].
  apply (Hreach "2026-01-02" "2026-01-02T08:00:00.000Z").
  apply run_reachable, reach_init.
Defined.

(** *** Date strings *)

Lemma slength_app (a b : string) :
  String.length (a +:+ b) = String.length a + String.length b.
Proof. induction a as [| c a IH]; [done |]. cbn. by rewrite <- IH. Qed.

(** A number with [k] decimal digits is printed with [k] characters. *)
Lemma pretty_N_go_length (k : nat) : ∀ (x : N) (s : string),
  (10 ^ N.of_nat k ≤ 10 * x + 9 < 10 ^ N.of_nat (S k))%N →
  String.length (pretty_N_go x s) = k + String.length s.
Proof.
  induction k as [| k IH]; intros x s Hx.
  - assert (x = 0%N) as -> by (change (10 ^ N.of_nat 1)%N with 10%N in Hx; lia).
    by rewrite pretty_N_go_0.
  - rewrite !Nat2N.inj_succ, !N.pow_succ_r' in Hx.
    assert (0 < 10 ^ N.of_nat k)%N as Hp by (apply N.neq_0_lt_0, N.pow_nonzero; lia).
    rewrite pretty_N_go_step by lia.
    rewrite IH; [simpl; lia |].
    rewrite Nat2N.inj_succ, N.pow_succ_r'.
    pose proof (N.div_mod x 10 ltac:(lia)) as Hd.
    pose proof (N.mod_lt x 10 ltac:(lia)) as Hm.
    set (p := (10 ^ N.of_nat k)%N) in *. clearbody p. clear IH.
    set (q := (x `div` 10)%N) in *. set (r := (x `mod` 10)%N) in *.
    clearbody q r. lia.
Qed.

Lemma four_digit_years (year : Z) :
  (1000 ≤ year ≤ 9999)%Z → String.length (pretty year) = 4.
Proof.
  intros Hy. destruct year as [| p | p]; try lia.
  change (pretty (Z.pos p)) with (pretty_N_go (N.pos p) "").
  rewrite (pretty_N_go_length 4); [done |].
  change (10 ^ N.of_nat 4)%N with 10000%N.
  change (10 ^ N.of_nat 5)%N with 100000%N. lia.
Qed.

Lemma two_digit_pad (n : nat) :
  n < 100 → String.length (CalendarView.padStart 2 "0" (pretty n)) = 2.
Proof.
  intros Hn.
  assert (Hall : Forall (λ k : nat,
                   String.length (CalendarView.padStart 2 "0" (pretty k)) = 2)
                   (seq 0 100))
    by by_evaluation.
  rewrite Forall_forall in Hall. apply Hall. apply elem_of_seq. lia.
Qed.

Lemma pad_day_inj (d1 d2 : nat) :
  d1 ≤ 31 → d2 ≤ 31 →
  CalendarView.padStart 2 "0" (pretty d1) = CalendarView.padStart 2 "0" (pretty d2) →
  d1 = d2.
Proof.
  intros H1 H2.
  assert (Hall : Forall (λ a : nat, Forall (λ b : nat,
                   CalendarView.padStart 2 "0" (pretty a)
                   = CalendarView.padStart 2 "0" (pretty b) → a = b) (seq 0 32))
                   (seq 0 32))
    by by_evaluation.
  rewrite Forall_forall in Hall. specialize (Hall d1 ltac:(apply elem_of_seq; lia)).
  rewrite Forall_forall in Hall. apply Hall. apply elem_of_seq. lia.
Qed.

(** X22. The date string of the calendar has the shape of the completion
    dates, YYYY-MM-DD: for a year of four digits, a month from 0 to 11 and a
    day up to 31 it has 10 units, the month being written from 1 and both
    month and day on two digits. Within a month, different days up to 31
    have different date strings. *)
Theorem dateString_shape (year : Z) (month : nat) :
  (∀ day, (1000 ≤ year ≤ 9999)%Z → month < 12 → day ≤ 31 →
          String.length (CalendarView.dateString year month day) = 10)
  ∧ (∀ d1 d2, d1 ≤ 31 → d2 ≤ 31 →
       CalendarView.dateString year month d1 = CalendarView.dateString year month d2 →
       d1 = d2)
  ∧ CalendarView.dateString 2026 0 2 = "2026-01-02"
  ∧ CalendarView.dateString 1999 11 31 = "1999-12-31".
Proof.
  split; [| split; [| split; by vm_compute]].
  - intros day Hy Hm Hd. unfold CalendarView.dateString.
    rewrite !slength_app, four_digit_years by done.
    rewrite !two_digit_pad by lia. reflexivity.
  - intros d1 d2 H1 H2 E. unfold CalendarView.dateString in E.
    do 4 apply String.app_inj in E. by apply pad_day_inj.
Qed.

Lemma dateString_shape_witness :
  String.length (CalendarView.dateString 2026 5 9) = 10
  ∧ CalendarView.dateString 2026 5 9 ≠ CalendarView.dateString 2026 5 19.
Proof.
  destruct (dateString_shape 2026 5) as (Hlen & Hinj & _).
  split; [apply Hlen; lia |].
  intros E. apply (Hinj 9 19) in E; lia.
Defined.

(** *** The journal by day *)

Section Dates.
Variable parseDate : string → option (Z * nat * nat).

Lemma file_entry_lookup year month map e d :
  default [] (CalendarView.file_entry parseDate year month map e !! d) =
  default [] (map !! d)
    ++ (if decide (on_day parseDate year month d e) then [CalendarView.summary e] else []).
Proof.
  unfold CalendarView.file_entry.
  destruct (decide (on_day parseDate year month d e)) as [Hd | Hd]; unfold on_day in Hd.
  - rewrite Hd, !bool_decide_eq_true_2 by done. cbn [andb].
    by rewrite lookup_insert_eq.
  - destruct (parseDate _) as [[[y m] dn] |] eqn:E; [| by rewrite app_nil_r].
    case_bool_decide as Hy; case_bool_decide as Hm; cbn [andb];
      try by rewrite app_nil_r.
    subst y m. rewrite lookup_insert_ne by congruence. by rewrite app_nil_r.
Qed.

Lemma fold_file_entry year month d entries : ∀ map,
  default [] (fold_left (CalendarView.file_entry parseDate year month) entries map !! d) =
  default [] (map !! d)
    ++ List.map CalendarView.summary (filter (on_day parseDate year month d) entries).
Proof.
  induction entries as [| e entries IH]; intros map; cbn [fold_left].
  - by rewrite app_nil_r.
  - rewrite IH, file_entry_lookup, <- app_assoc. f_equal.
    rewrite filter_cons. by destruct (decide _).
Qed.

(** X23. The calendar files each journal entry whose date reads as a day of
    the month shown under that day, once, in the order of the journal, and
    files no other entry: the list under a day is the list of the entries of
    that day. A day is marked as having a journal exactly when some entry
    reads as that day. *)
Theorem journalByDay_groups (entries : list JournalEntry.t) (habits : list HabitItem.t)
    (year : Z) (month d : nat) :
  default [] (CalendarView.journalByDay parseDate entries year month !! d) =
    map CalendarView.summary (filter (on_day parseDate year month d) entries)
  ∧ (CalendarView.hasJournal
       (CalendarView.getDayData parseDate entries habits year month d) = true
     ↔ ∃ e, e ∈ entries ∧ on_day parseDate year month d e).
Proof.
  assert (Hgroup :
    default [] (CalendarView.journalByDay parseDate entries year month !! d) =
    map CalendarView.summary (filter (on_day parseDate year month d) entries)).
  { unfold CalendarView.journalByDay. by rewrite fold_file_entry, lookup_empty. }
  split; [exact Hgroup |].
  unfold CalendarView.getDayData; cbn [CalendarView.hasJournal].
  split.
  - intros Hhas.
    destruct (CalendarView.journalByDay parseDate entries year month !! d)
      as [[| x l] |] eqn:E; try done.
    cbn in Hgroup.
    destruct (filter (on_day parseDate year month d) entries) as [| e es] eqn:Ef;
      [done |].
    exists e.
    assert (Hin : e ∈ filter (on_day parseDate year month d) entries)
      by (rewrite Ef; by left).
    apply list_elem_of_filter in Hin as [Hday Hin]. by split.
  - intros (e & He & Hday).
    assert (Hin : e ∈ filter (on_day parseDate year month d) entries)
      by by apply list_elem_of_filter.
    destruct (CalendarView.journalByDay parseDate entries year month !! d)
      as [[| x l] |] eqn:E; [| done |];
      cbn in Hgroup; destruct (filter _ entries); try done;
      by apply elem_of_nil in Hin.
Qed.

End Dates.

Lemma journalByDay_groups_witness :
  let entries :=
    [ JournalEntry.mk "j2" "Later" "Second." "2026-01-02" None;
      JournalEntry.mk "j0" "Other" "Elsewhere." "2025-12-31" None;
      JournalEntry.mk "j1" "Early" "First." "2026-01-02" None ] in
  CalendarView.hasJournal
    (CalendarView.getDayData sample_parseDate entries [] 2026 0 2) = true
  ∧ default [] (CalendarView.journalByDay sample_parseDate entries 2026 0 !! 2)
    = [ CalendarView.mkJournalSummary "j2" "Later" "Second.";
        CalendarView.mkJournalSummary "j1" "Early" "First." ].
Proof.
  cbv zeta.
  destruct (journalByDay_groups sample_parseDate
              [ JournalEntry.mk "j2" "Later" "Second." "2026-01-02" None;
                JournalEntry.mk "j0" "Other" "Elsewhere." "2025-12-31" None;
                JournalEntry.mk "j1" "Early" "First." "2026-01-02" None ]
              [] 2026 0 2) as [Hgroup Hhas].
  split.
  - apply Hhas. eexists. split; [by left | reflexivity].
  - rewrite Hgroup. by vm_compute.
Defined.

(** *** Habits by day *)

(** X24. The habits listed under a day are the habits whose completion date
    is the date string of that day, in their order; their number never
    exceeds the total shown beside it. In a state of a session every habit
    listed is completed, and a habit is listed under at most one day up to 31
    of the month shown. Completing a habit with today's date puts it in the
    list of the day whose date string is today's; un-completing a habit takes
    it off that list. *)
Theorem getDayData_habits (parseDate : string → option (Z * nat * nat))
    (s : State) (year : Z) (month day : nat) :
  let data := CalendarView.getDayData parseDate (journalEntries s) (habits s)
                year month day in
  let listed h := HabitItem.dateCompleted h = Some (CalendarView.dateString year month day) in
  CalendarView.habits data =
    map (λ h, CalendarView.mkHabitSummary (HabitItem.id h) (HabitItem.name h)
                (HabitItem.completed h) (HabitItem.category h))
      (filter listed (habits s))
  ∧ CalendarView.habitsCompleted data = length (CalendarView.habits data)
  ∧ CalendarView.habitsCompleted data ≤ CalendarView.totalHabits data
  ∧ CalendarView.totalHabits data = length (habits s)
  ∧ (∀ today now, reachable today now s →
       Forall (λ x, CalendarView.hs_completed x = true) (CalendarView.habits data))
  ∧ (∀ h other, h ∈ habits s → listed h → day ≤ 31 → other ≤ 31 →
       HabitItem.dateCompleted h = Some (CalendarView.dateString year month other) →
       other = day)
  ∧ (∀ h id, h ∈ habits s → HabitItem.id h = id →
       (HabitItem.completed h = false →
        toggle_one (CalendarView.dateString year month day) id h
          ∈ filter listed
              (habits (step (ToggleHabit (CalendarView.dateString year month day) id) s)))
       ∧ (∀ today, HabitItem.completed h = true →
            toggle_one today id h
              ∉ filter listed (habits (step (ToggleHabit today id) s)))).
Proof.
  cbv zeta. unfold CalendarView.getDayData;
    cbn [CalendarView.habits CalendarView.habitsCompleted CalendarView.totalHabits].
  split; [done |]. split; [by rewrite length_map |]. split; [apply length_filter |].
  split; [done |]. split; [| split].
  - intros today now Hs. apply reachable_dated in Hs.
    apply Forall_fmap, Forall_forall. intros h [Hl Hh]%list_elem_of_filter.
    rewrite Forall_forall in Hs. destruct (Hs h Hh) as [Hiff _].
    cbn. apply Hiff. by rewrite Hl.
  - intros h other _ Hl Hd Ho E. rewrite Hl in E. injection E as E.
    unfold CalendarView.dateString in E.
    do 4 apply String.app_inj in E. symmetry. by apply pad_day_inj.
  - intros h id Hh Hid. split.
    + intros Hpending. apply list_elem_of_filter. split.
      * unfold toggle_one. rewrite bool_decide_eq_true_2 by done. cbn.
        by rewrite Hpending.
      * cbn. by apply (list_elem_of_fmap_2 (toggle_one _ id)).
    + intros today Hdone [Hl _]%list_elem_of_filter.
      unfold toggle_one in Hl. rewrite bool_decide_eq_true_2 in Hl by done.
      cbn in Hl. by rewrite Hdone in Hl.
Qed.

Lemma getDayData_habits_witness :
  let s := step (ToggleHabit "2026-01-02" "h1") two_habits in
  Forall (λ x, CalendarView.hs_completed x = true)
    (CalendarView.habits
       (CalendarView.getDayData sample_parseDate
          (journalEntries (initialState "2026-01-02" "2026-01-02T08:00:00.000Z")) []
          2026 0 2))
  ∧ toggle_one "2026-01-02" "h1" sample_habit
    ∈ filter (λ h, HabitItem.dateCompleted h = Some (CalendarView.dateString 2026 0 2))
        (habits s).
Proof.
  cbv zeta. split.
  - destruct (getDayData_habits sample_parseDate
                (initialState "2026-01-02" "2026-01-02T08:00:00.000Z") 2026 0 2)
      as (_ & _ & _ & _ & Hdone & _).
    apply (Hdone "2026-01-02" "2026-01-02T08:00:00.000Z"), reach_init.
  - destruct (getDayData_habits sample_parseDate two_habits 2026 0 2)
      as (_ & _ & _ & _ & _ & _ & Htoggle).
    destruct (Htoggle sample_habit "h1") as [Hon _];
      [apply elem_of_cons; right; apply elem_of_cons; by left | done |].
    exact (Hon eq_refl).
Defined.

End CalendarLaws.

(** ** The persistence bridge, both ways *)

Module PersistenceLaws.
Import Text Store Hydration Persistence HydrationSpec CalendarSpec.
Import HydrationFacts.

Section Bridge.
Variable JSON_stringify : json → string.
Variable fits : string → string → bool.
Variable JSON_parse : string → outcome json.

Lemma persist_lookup key c (localStorage : gmap string string) :
  fits key (JSON_stringify (JArr c)) = true →
  persist JSON_stringify fits key c localStorage !! key = Some (JSON_stringify (JArr c)).
Proof.
  intros Hfits. unfold persist, setItem. rewrite Hfits. apply lookup_insert_eq.
Qed.

Lemma persist_other key key' c (localStorage : gmap string string) :
  key ≠ key' →
  persist JSON_stringify fits key c localStorage !! key' = localStorage !! key'.
Proof.
  intros Hne. unfold persist, setItem.
  destruct (fits key _); [by apply lookup_insert_ne | done].
Qed.

Lemma persist_stored key c (localStorage : gmap string string) :
  fits key (JSON_stringify (JArr c)) = true →
  JSON_stringify (JArr c) ≠ "" →
  JSON_parse (JSON_stringify (JArr c)) = Ok (JArr c) →
  stored_array JSON_parse key (persist JSON_stringify fits key c localStorage) c.
Proof.
  intros Hfits Hne Hparse. exists (JSON_stringify (JArr c)).
  split; [by apply persist_lookup | done].
Qed.

Lemma read_array_other key key' c (localStorage : gmap string string) :
  key ≠ key' →
  read_array JSON_parse key' (persist JSON_stringify fits key c localStorage)
  = read_array JSON_parse key' localStorage.
Proof. intros Hne. unfold read_array. by rewrite persist_other. Qed.

Lemma read_chat_other key c (localStorage : gmap string string) :
  key ≠ k_chat →
  read_chat JSON_parse (persist JSON_stringify fits key c localStorage)
  = read_chat JSON_parse localStorage.
Proof. intros Hne. unfold read_chat. by rewrite persist_other. Qed.

(** X25. What one session writes, the next one reads: when the write fits
    and the decoder gives back the array that the encoder was given, the
    hydration of the sleep and of the journal collection returns the array
    persisted, and so does the hydration of the chat collection when the
    array is not empty. A write that does not fit leaves the storage as it
    was. Persisting one collection does not change what the hydration of the
    other two returns. *)
Theorem persist_then_hydrate (c cur : list json) (localStorage : gmap string string) :
  let text := JSON_stringify (JArr c) in
  (text ≠ "" → JSON_parse text = Ok (JArr c) →
     (fits k_sleep text = true →
      hydrateSleep JSON_parse (persistSleep JSON_stringify fits c localStorage) cur = c)
     ∧ (fits k_journal text = true →
        hydrateJournal JSON_parse (persistJournal JSON_stringify fits c localStorage) cur
        = c)
     ∧ (fits k_chat text = true → c ≠ [] →
        hydrateChat JSON_parse (persistChat JSON_stringify fits c localStorage) cur = c))
  ∧ (∀ key, fits key text = false →
       persist JSON_stringify fits key c localStorage = localStorage)
  ∧ hydrateSleep JSON_parse (persistJournal JSON_stringify fits c localStorage) cur
    = hydrateSleep JSON_parse localStorage cur
  ∧ hydrateSleep JSON_parse (persistChat JSON_stringify fits c localStorage) cur
    = hydrateSleep JSON_parse localStorage cur
  ∧ hydrateJournal JSON_parse (persistSleep JSON_stringify fits c localStorage) cur
    = hydrateJournal JSON_parse localStorage cur
  ∧ hydrateJournal JSON_parse (persistChat JSON_stringify fits c localStorage) cur
    = hydrateJournal JSON_parse localStorage cur
  ∧ hydrateChat JSON_parse (persistSleep JSON_stringify fits c localStorage) cur
    = hydrateChat JSON_parse localStorage cur
  ∧ hydrateChat JSON_parse (persistJournal JSON_stringify fits c localStorage) cur
    = hydrateChat JSON_parse localStorage cur.
Proof.
  cbv zeta. unfold hydrateSleep, hydrateJournal, hydrateChat,
    persistSleep, persistJournal, persistChat.
  split; [| split].
  - intros Hne Hparse. split; [| split].
    + intros Hfits. by rewrite (read_array_stored _ _ _ c (persist_stored _ _ _ Hfits Hne Hparse)).
    + intros Hfits. by rewrite (read_array_stored _ _ _ c (persist_stored _ _ _ Hfits Hne Hparse)).
    + intros Hfits Hc.
      rewrite (read_chat_stored _ _ c (persist_stored _ _ _ Hfits Hne Hparse)).
      by destruct c.
  - intros key Hfits. unfold persist, setItem. by rewrite Hfits.
  - rewrite !read_array_other, !read_chat_other by done. done.
Qed.

End Bridge.

Lemma persist_then_hydrate_witness :
  hydrateSleep sample_parse
    (persistSleep sample_stringify (λ _ _, true) [JNum 1] empty_chat_storage) in_memory
  = [JNum 1]
  ∧ persist sample_stringify (λ _ _, false) k_sleep [JNum 1] empty_chat_storage
    = empty_chat_storage.
Proof.
  destruct (persist_then_hydrate sample_stringify (λ _ _, true) sample_parse
              [JNum 1] in_memory empty_chat_storage) as (Hback & _).
  destruct (persist_then_hydrate sample_stringify (λ _ _, false) sample_parse
              [JNum 1] in_memory empty_chat_storage) as (_ & Hfull & _).
  split.
  - destruct (Hback ltac:(done) eq_refl) as (Hsleep & _). by apply Hsleep.
  - by apply Hfull.
Defined.

End PersistenceLaws.
